(** * pyrcmemcached: a memcached-like client tunnelled over IRC METADATA

    Shallow embedding of [pyrcmemcached.py] and the properties of its
    message parser, its socket reader, its handshake and its key/value
    operations.

    Conventions of the embedding.
    - A Python [str] is represented by the [string] that holds its UTF-8
      encoding, a Python [bytes] by the [string] of its bytes.  Every
      string operation the program uses ([split] on ASCII separators,
      [startswith], [endswith], slicing off ASCII characters, equality)
      commutes with that encoding, so [str.encode] is the identity and
      [bytes.decode] is the identity on well-formed UTF-8 and raises
      [UnicodeDecodeError] elsewhere.
    - An exception is a value of [exn]; a computation that can raise
      returns an [outcome].
    - The socket is the environment: the bytes written are logged, and
      what [recv] answers is read from a script of events.
    - The loops that read messages are written with fuel, which each
      caller takes from the size of the inbox and of the script; the
      last section shows that this fuel is never used up.
    - [print] and [time.sleep] leave no trace in the state and are not
      modelled. *)

From Stdlib Require Import String Ascii List ZArith Bool Lia DecimalString.
From Stdlib Require DecimalPos.
Import ListNotations.

Local Open Scope string_scope.
Local Open Scope list_scope.

(** ** Python strings *)

Module PyStr.

Definition CR : ascii := "013"%char.
Definition LF : ascii := "010"%char.
Definition CRLF : string := String CR (String LF "").

(** [bool(s)] for a string: the empty string is false. *)
Definition truthy (s : string) : bool :=
  match s with
  | "" => false
  | String _ _ => true
  end.

(** [s.startswith(p)] *)
Fixpoint startswith (s p : string) {struct p} : bool :=
  match p, s with
  | "", _ => true
  | String _ _, "" => false
  | String c p', String d s' => Ascii.eqb c d && startswith s' p'
  end.

(** [s[n:]] *)
Fixpoint drop (n : nat) (s : string) : string :=
  match n, s with
  | O, _ => s
  | S _, "" => ""
  | S k, String _ t => drop k t
  end.

(** [s[:n]] *)
Fixpoint take (n : nat) (s : string) : string :=
  match n, s with
  | O, _ => ""
  | S _, "" => ""
  | S k, String c t => String c (take k t)
  end.

(** [s.endswith(p)] *)
Definition endswith (s p : string) : bool :=
  (String.length p <=? String.length s)%nat
  && String.eqb (drop (String.length s - String.length p) s) p.

(** [s[0:-k]] *)
Definition chop (k : nat) (s : string) : string :=
  take (String.length s - k) s.

(** The first occurrence of a non-empty separator: the text before it
    and the text after it. *)
Fixpoint partition (sep s : string) : option (string * string) :=
  match s with
  | "" => None
  | String c t =>
      if startswith s sep then Some ("", drop (String.length sep) s)
      else match partition sep t with
           | Some (a, b) => Some (String c a, b)
           | None => None
           end
  end.

(** [sep in s] *)
Definition contains (sep s : string) : bool :=
  match partition sep s with
  | Some _ => true
  | None => false
  end.

Fixpoint split_fuel (fuel : nat) (sep s : string) : list string :=
  match fuel with
  | O => [s]
  | S f =>
      match partition sep s with
      | None => [s]
      | Some (a, b) => a :: split_fuel f sep b
      end
  end.

(** [s.split(sep)] for a non-empty separator: every occurrence taken
    from the left, none overlapping.  A string of length [n] holds at
    most [n] of them. *)
Definition split (sep s : string) : list string :=
  split_fuel (String.length s) sep s.

(** [s.split(sep, 1)] *)
Definition split1 (sep s : string) : list string :=
  match partition sep s with
  | None => [s]
  | Some (a, b) => [a; b]
  end.

(** [list(filter(bool, l))] *)
Definition nonempty (l : list string) : list string := filter truthy l.

End PyStr.

(** ** Exceptions and outcomes *)

Inductive exn : Type :=
| AssertionError
| ValueError
| IndexError
| AttributeError
| UnicodeDecodeError
| NameError (name : string)
    (* a name that no scope of the module binds *)
| Disconnected
| MemcachedKeyCharacterError (key : string)
| Exception (msg : string).

Inductive outcome (A : Type) : Type :=
| Ok (a : A)
| Raise (e : exn)
| Blocked
    (* [recv] is called and the script of the peer is over *)
| OutOfFuel.

Arguments Ok {A} a.
Arguments Raise {A} e.
Arguments Blocked {A}.
Arguments OutOfFuel {A}.

Definition obind {A B} (x : outcome A) (f : A -> outcome B) : outcome B :=
  match x with
  | Ok a => f a
  | Raise e => Raise e
  | Blocked => Blocked
  | OutOfFuel => OutOfFuel
  end.

Definition raises {A} (x : outcome A) : Prop := exists e, x = Raise e.

(** ** Messages and the parser *)

Record Message : Type := mkMessage {
  tags : list string;
  prefix : option string;
  command : string;
  params : list string
}.

Import PyStr.

(** Lines 33-34: the tag segment, dropped. *)
Definition strip_tags (s : string) : outcome string :=
  if startswith s "@" then
    match split1 " " s with
    | [_; rest] => Ok rest
    | _ => Raise ValueError
    end
  else Ok s.

(** Lines 35-39: the tokens. *)
Definition tokenize (s : string) : outcome (list string) :=
  if contains " :" s then
    match split " :" s with
    | [other_tokens; trailing_param] =>
        Ok (nonempty (split " " other_tokens) ++ [trailing_param])
    | _ => Raise ValueError
    end
  else Ok (nonempty (split " " s)).

(** Lines 40-51: prefix, command and parameters. *)
Definition assemble (tokens : list string) : outcome Message :=
  match tokens with
  | [] => Raise IndexError
  | t0 :: rest =>
      let '(pfx, tokens) :=
        if startswith t0 ":" then (Some (drop 1 t0), rest)
        else (None, tokens) in
      match tokens with
      | [] => Raise IndexError
      | cmd :: ps => Ok (mkMessage [] pfx cmd ps)
      end
  end.

(** Lines 26-51 *)
Definition parse_message (s : string) : outcome Message :=
  if negb (endswith s CRLF) then Raise AssertionError
  else
    let s := chop 2 s in
    obind (strip_tags s) (fun s =>
    obind (tokenize s) assemble).

(** ** Keys and values *)

Definition key_chars : string :=
  "abcdefghijklmnopqrstuvwxyzABCDEFGHIJKLMNOPQRSTUVWXYZ0123456789_.:".

Fixpoint mem_char (c : ascii) (s : string) : bool :=
  match s with
  | "" => false
  | String d t => Ascii.eqb c d || mem_char c t
  end.

Fixpoint all_chars (p : ascii -> bool) (s : string) : bool :=
  match s with
  | "" => true
  | String c t => p c && all_chars p t
  end.

(** Lines 15-17. *)
Definition isvalidkey (key : string) : bool :=
  all_chars (fun c => mem_char c key_chars) key.

(** The values a caller can hand to [set] and [get] can hand back.
    [PyObject] stands for an instance of any class other than [bool],
    [int] and [str], with the text that [format] gives for it. *)
Inductive pyvalue : Type :=
| PyNone
| PyBool (b : bool)
| PyInt (z : Z)
| PyStr (s : string)
| PyObject (text : string).

(** [isinstance(v, bool)] *)
Definition isinstance_bool (v : pyvalue) : bool :=
  match v with
  | PyBool _ => true
  | _ => false
  end.

(** [isinstance(v, int)]: [bool] is a subclass of [int]. *)
Definition isinstance_int (v : pyvalue) : bool :=
  match v with
  | PyBool _ | PyInt _ => true
  | _ => false
  end.

(** ['{}'.format(v)] *)
Definition format_value (v : pyvalue) : string :=
  match v with
  | PyNone => "None"
  | PyBool true => "True"
  | PyBool false => "False"
  | PyInt z => NilZero.string_of_int (Z.to_int z)
  | PyStr s => s
  | PyObject text => text
  end.

(** [int(s)] on ASCII text: blanks around, an optional sign, decimal
    digits that single underscores may separate.  (The digits and the
    blanks outside ASCII that Python also takes are not modelled: a
    string with such a character is refused here.) *)
Module PyIntParse.

Definition is_space (c : ascii) : bool :=
  let n := nat_of_ascii c in
  (n =? 32)%nat || ((9 <=? n) && (n <=? 13))%nat
  || ((28 <=? n) && (n <=? 31))%nat.

Definition digit (c : ascii) : option Z :=
  let n := nat_of_ascii c in
  if ((48 <=? n) && (n <=? 57))%nat then Some (Z.of_nat (n - 48)) else None.

Fixpoint lstrip (s : string) : string :=
  match s with
  | "" => ""
  | String c t => if is_space c then lstrip t else s
  end.

Fixpoint rstrip (s : string) : string :=
  match s with
  | "" => ""
  | String c t =>
      match rstrip t with
      | "" => if is_space c then "" else String c ""
      | t' => String c t'
      end
  end.

Fixpoint digits (acc : Z) (after_digit : bool) (s : string) : option Z :=
  match s with
  | "" => if after_digit then Some acc else None
  | String c t =>
      match digit c with
      | Some d => digits (10 * acc + d) true t
      | None =>
          if Ascii.eqb c "_" && after_digit then digits acc false t
          else None
      end
  end.

Definition of_string (s : string) : outcome Z :=
  let s := rstrip (lstrip s) in
  let '(neg, body) :=
    match s with
    | String "-" t => (true, t)
    | String "+" t => (false, t)
    | _ => (false, s)
    end in
  match digits 0 false body with
  | Some z => Ok (if neg then (- z)%Z else z)
  | None => Raise ValueError
  end.

End PyIntParse.

(** ** UTF-8 *)

Module Utf8.

Inductive state : Type :=
| Start
| Cont (n : nat)                (* [n] continuation bytes to come *)
| First (lo hi : nat) (n : nat) (* one byte in [lo..hi], then [n] more *).

Definition within (lo hi b : nat) : bool := ((lo <=? b) && (b <=? hi))%nat.

Definition step (st : state) (b : nat) : option state :=
  match st with
  | Start =>
      if (b <? 128)%nat then Some Start
      else if within 194 223 b then Some (Cont 1)
      else if (b =? 224)%nat then Some (First 160 191 1)
      else if within 225 236 b || within 238 239 b then Some (Cont 2)
      else if (b =? 237)%nat then Some (First 128 159 1)
      else if (b =? 240)%nat then Some (First 144 191 2)
      else if within 241 243 b then Some (Cont 3)
      else if (b =? 244)%nat then Some (First 128 143 2)
      else None
  | Cont n =>
      if within 128 191 b then
        match n with
        | 0 | 1 => Some Start
        | S k => Some (Cont k)
        end
      else None
  | First lo hi n => if within lo hi b then Some (Cont n) else None
  end.

Fixpoint run (st : state) (s : string) : bool :=
  match s with
  | "" => match st with Start => true | _ => false end
  | String c t =>
      match step st (nat_of_ascii c) with
      | Some st' => run st' t
      | None => false
      end
  end.

(** [data.decode()] *)
Definition decode (data : string) : outcome string :=
  if run Start data then Ok data else Raise UnicodeDecodeError.

End Utf8.

(** ** The connection *)

Inductive recv_event : Type :=
| RecvData (new_data : string)  (* [recv] returns these bytes; none: closed *)
| RecvTimeout.                  (* [recv] raises [socket.timeout] *)

Record Socket : Type := mkSocket {
  incoming : list recv_event;   (* what the next calls of [recv] answer *)
  outgoing : list string        (* the arguments of [sendall], in order *)
}.

Record IrcClient : Type := mkIrcClient {
  name : string;
  show_io : bool;
  inbuffer : list Message;
  conn : option Socket;         (* [None] once [disconnect] has run *)
  nick : string
}.

Definition with_inbuffer (st : IrcClient) (b : list Message) : IrcClient :=
  mkIrcClient (name st) (show_io st) b (conn st) (nick st).

Definition with_conn (st : IrcClient) (c : option Socket) : IrcClient :=
  mkIrcClient (name st) (show_io st) (inbuffer st) c (nick st).

(** What the client has written on its socket so far. *)
Definition sent (st : IrcClient) : list string :=
  match conn st with
  | Some sock => outgoing sock
  | None => []
  end.

(** Computations on the client. *)
Definition M (A : Type) : Type := IrcClient -> outcome A * IrcClient.

Definition ret {A} (a : A) : M A := fun st => (Ok a, st).

Definition raise {A} (e : exn) : M A := fun st => (Raise e, st).

Definition lift {A} (x : outcome A) : M A := fun st => (x, st).

Definition bind {A B} (c : M A) (k : A -> M B) : M B :=
  fun st =>
    match c st with
    | (Ok a, st') => k a st'
    | (Raise e, st') => (Raise e, st')
    | (Blocked, st') => (Blocked, st')
    | (OutOfFuel, st') => (OutOfFuel, st')
    end.

Declare Scope client_scope.
Delimit Scope client_scope with client.
Notation "x <- c ;; k" := (bind c (fun x => k))
  (at level 61, c at next level, right associativity) : client_scope.
Notation "c ;; k" := (bind c (fun _ => k))
  (at level 61, right associativity) : client_scope.
Local Open Scope client_scope.

(** [l[i]] *)
Definition index {A} (l : list A) (i : nat) : outcome A :=
  match nth_error l i with
  | Some x => Ok x
  | None => Raise IndexError
  end.

(** Lines 58-61.  The nickname is drawn at random: it is an input. *)
Definition connect (st : IrcClient) (script : list recv_event) (nick : string)
  : IrcClient :=
  mkIrcClient (name st) (show_io st) (inbuffer st)
              (Some (mkSocket script [])) nick.

(** Lines 54-57 *)
Definition new_IrcClient (name : string) (show_io : bool) : IrcClient :=
  mkIrcClient name show_io [] None "".

(** Lines 64-70 *)
Definition disconnect : M unit :=
  fun st =>
    match conn st with
    | None => (Ok tt, st)
    | Some _ => (Ok tt, with_conn st None)
    end.

(** How the receiving loop of [getMessages] ends without raising. *)
Inductive loop_exit : Type :=
| ReturnEmpty             (* line 81 *)
| Break (data : string). (* lines 85 and 92 *)

(** Lines 75-95, over the answers of [recv]. *)
Fixpoint recv_loop (assert_get_one : bool) (data : string)
    (script : list recv_event) : outcome loop_exit * list recv_event :=
  match script with
  | [] => (Blocked, [])
  | RecvTimeout :: rest =>
      if negb assert_get_one && String.eqb data "" then (Ok ReturnEmpty, rest)
      else (Ok (Break data), rest)
  | RecvData new_data :: rest =>
      if negb (truthy new_data) then (Raise (NameError "ConnectionClosed"), rest)
      else
        let data := (data ++ new_data)%string in
        if endswith new_data CRLF then (Ok (Break data), rest)
        else recv_loop assert_get_one data rest
  end.

(** Lines 96-101 *)
Fixpoint parse_lines (lines : list string) : outcome (list Message) :=
  match lines with
  | [] => Ok []
  | line :: more =>
      if truthy line then
        obind (parse_message (line ++ CRLF)) (fun message =>
        obind (parse_lines more) (fun messages =>
        Ok (message :: messages)))
      else parse_lines more
  end.

(** Lines 71-102 *)
Definition getMessages (assert_get_one : bool) : M (list Message) :=
  fun st =>
    match conn st with
    | None => (Raise AttributeError, st)
    | Some sock =>
        let '(r, rest) := recv_loop assert_get_one "" (incoming sock) in
        let st' := with_conn st (Some (mkSocket rest (outgoing sock))) in
        match r with
        | Ok ReturnEmpty => (Ok [], st')
        | Ok (Break data) =>
            (obind (Utf8.decode data) (fun text =>
             parse_lines (split CRLF text)), st')
        | Raise e => (Raise e, st')
        | Blocked => (Blocked, st')
        | OutOfFuel => (OutOfFuel, st')
        end
    end.

(** A bound on the messages a client can still deliver: those of its
    inbox and at most one for each byte and each answer of the script. *)
Definition event_size (e : recv_event) : nat :=
  match e with
  | RecvData d => S (String.length d)
  | RecvTimeout => 1
  end.

Definition script_size (script : list recv_event) : nat :=
  list_sum (map event_size script).

Definition budget (st : IrcClient) : nat :=
  S (length (inbuffer st)
     + match conn st with
       | Some sock => script_size (incoming sock)
       | None => 0
       end).

Definition accepts (filter_pred : option (Message -> bool)) (m : Message)
  : bool :=
  match filter_pred with
  | None => true
  | Some p => p m
  end.

(** Lines 104-111: the loop, one iteration for each unit of fuel. *)
Fixpoint getMessage_loop (fuel : nat) (filter_pred : option (Message -> bool))
  : M Message :=
  match fuel with
  | O => lift OutOfFuel
  | S fuel' =>
      (fun st =>
         match inbuffer st with
         | [] => (messages <- getMessages true ;;
                  fun st' => (Ok tt, with_inbuffer st' messages)) st
         | _ :: _ => (Ok tt, st)
         end) ;;
      fun st =>
        match inbuffer st with
        | [] => (Raise (NameError "NoMessageException"), st)
        | message :: rest =>
            let st' := with_inbuffer st rest in
            if accepts filter_pred message then (Ok message, st')
            else getMessage_loop fuel' filter_pred st'
        end
  end.

(** Lines 103-111 *)
Definition getMessage (filter_pred : option (Message -> bool)) : M Message :=
  fun st => getMessage_loop (budget st) filter_pred st.

(** Lines 112-119 *)
Definition sendall (bytes : string) : M unit :=
  fun st =>
    match conn st with
    | None => (Raise AttributeError, st)
    | Some sock =>
        (Ok tt,
         with_conn st (Some (mkSocket (incoming sock) (outgoing sock ++ [bytes]))))
    end.

Definition sendLine (line : string) : M unit :=
  fun st =>
    match conn st with
    | None => (Raise Disconnected, st)
    | Some _ =>
        (sendall line ;;
         if negb (endswith line CRLF) then sendall CRLF else ret tt) st
    end.

(** ** The handshake *)

(** Lines 129-137: read until the list of capabilities is complete;
    the message that completes it and the capabilities are returned. *)
Fixpoint cap_loop (fuel : nat) (capabilities : list string)
  : M (Message * list string) :=
  match fuel with
  | O => lift OutOfFuel
  | S fuel' =>
      m <- getMessage None ;;
      if negb (String.eqb (command m) "CAP") then cap_loop fuel' capabilities
      else
        p1 <- lift (index (params m) 1) ;;
        if negb (String.eqb p1 "LS") then cap_loop fuel' capabilities
        else
          p2 <- lift (index (params m) 2) ;;
          if String.eqb p2 "*" then
            p3 <- lift (index (params m) 3) ;;
            cap_loop fuel' (capabilities ++ split " " p3)
          else ret (m, capabilities ++ split " " p2)
  end.

(** Lines 139-140 and 145-146: [while m.command != c: m = getMessage()] *)
Fixpoint read_until (fuel : nat) (c : string) (m : Message) : M Message :=
  if String.eqb (command m) c then ret m
  else
    match fuel with
    | O => lift OutOfFuel
    | S fuel' => m' <- getMessage None ;; read_until fuel' c m'
    end.

(** Lines 151-152: [while m.command == c: m = getMessage()] *)
Fixpoint read_while (fuel : nat) (c : string) (m : Message) : M Message :=
  if String.eqb (command m) c then
    match fuel with
    | O => lift OutOfFuel
    | S fuel' => m' <- getMessage None ;; read_while fuel' c m'
    end
  else ret m.

(** [l[1:-1]] *)
Definition middle {A} (l : list A) : list A := removelast (tl l).

(** Line 141: [{x.split('=')[0] for x in m.params[1:-1]}], as a list. *)
Definition isupport_names (m : Message) : list string :=
  map (fun x => hd "" (split "=" x)) (middle (params m)).

(** Lines 123-146 *)
Definition authenticate : M unit :=
  fun st =>
    (sendLine "CAP LS 302" ;;
     sendLine "USER pyrcmemcached * * :pyrcmemcached" ;;
     sendLine ("NICK " ++ nick st) ;;
     r <- (fun st => cap_loop (budget st) [] st) ;;
     let m := fst r in
     sendLine "CAP END" ;;
     m <- (fun st => read_until (budget st) "005" m st) ;;
     if negb (existsb (String.eqb "METADATA") (isupport_names m)) then
       raise (Exception "Server does not support METADATA.")
     else
       sendLine "PING" ;;
       _ <- (fun st => read_until (budget st) "PONG" m st) ;;
       ret tt) st.

(** Lines 148-154 *)
Definition join (channel : string) : M unit :=
  sendLine ("JOIN " ++ channel) ;;
  m <- getMessage None ;;
  m <- (fun st => read_while (budget st) "NOTICE" m st) ;;
  if String.eqb (command m) "366" then raise AssertionError
  else
    _ <- getMessages false ;;
    ret tt.

(** ** The store *)

Module Client.

Definition channel : string := "#foo".

(** Lines 169-173, from the connected socket on. *)
Definition handshake : M unit :=
  authenticate ;; join channel.

(** Lines 175-179 *)
Definition disconnect_all : M unit := disconnect.
Definition mark_dead (reason : string) : M unit := disconnect.

(** Lines 184-189 *)
Definition type_tag (value : pyvalue) : string :=
  if isinstance_bool value then "bool"
  else if isinstance_int value then "int"
  else "str".

(** What [set] puts after [" :"] on the line it sends. *)
Definition payload (value : pyvalue) : string :=
  type_tag value ++ ":" ++ format_value value.

(** [assert m.command == c, m] *)
Definition assert_command (m : Message) (c : string) : M unit :=
  if String.eqb (command m) c then ret tt else raise AssertionError.

(** Lines 181-199 *)
Definition set (key : string) (value : pyvalue) : M unit :=
  if negb (isvalidkey key) then raise (MemcachedKeyCharacterError key)
  else
    sendLine ("METADATA " ++ channel ++ " SET " ++ key ++ " :"
              ++ payload value) ;;
    m <- getMessage None ;;
    assert_command m "761" ;;
    m <- getMessage None ;;
    assert_command m "762".

(** Lines 213-218 *)
Definition decode (text : string) : outcome pyvalue :=
  match split1 ":" text with
  | [type_; value] =>
      if String.eqb type_ "bool" then Ok (PyBool (truthy value))
      else if String.eqb type_ "int" then
        obind (PyIntParse.of_string value) (fun z => Ok (PyInt z))
      else Ok (PyStr value)
  | _ => Raise ValueError
  end.

(** Lines 201-218.  Line 203 names [MemcachedKeyCharacterError] bare:
    the class is an attribute of [Client] and no scope of [get] binds
    that name. *)
Definition get (key : string) : M pyvalue :=
  if negb (isvalidkey key) then raise (NameError "MemcachedKeyCharacterError")
  else
    sendLine ("METADATA " ++ channel ++ " GET " ++ key) ;;
    m <- getMessage None ;;
    if String.eqb (command m) "766" then ret PyNone
    else
      assert_command m "761" ;;
      k <- lift (index (params m) 1) ;;
      if negb (String.eqb k key) then raise AssertionError
      else
        p3 <- lift (index (params m) 3) ;;
        lift (decode p3).

(** Lines 222-232 *)
Fixpoint send_deletes (keys : list string) : M unit :=
  match keys with
  | [] => ret tt
  | key :: more =>
      sendLine ("METADATA " ++ channel ++ " SET " ++ key) ;;
      send_deletes more
  end.

Fixpoint read_acks (keys : list string) : M unit :=
  match keys with
  | [] => ret tt
  | _ :: more =>
      m <- getMessage None ;;
      assert_command m "761" ;;
      m <- getMessage None ;;
      assert_command m "762" ;;
      read_acks more
  end.

Definition delete_multi (keys : list string) : M unit :=
  send_deletes keys ;; read_acks keys.

(** Lines 220-221 *)
Definition delete (key : string) : M unit := delete_multi [key].

End Client.

(** ** Scenarios *)

Module Scenario.

(** A client on a fresh connection whose peer answers [script]. *)
Definition client (script : list recv_event) (nick : string) : IrcClient :=
  connect (new_IrcClient "irc" false) script nick.

Definition line (s : string) : string := (s ++ CRLF)%string.

(** The handshake whose join request is answered by numeric 366. *)
Definition handshake_366 : list recv_event :=
  [ RecvData (line ":srv CAP * LS :metadata-2");
    RecvData (line ":srv 005 nick METADATA=1 :are supported by this server");
    RecvData (line ":srv PONG srv :srv");
    RecvData (line ":srv 366 nick #foo :End of /NAMES list.") ].

(** The same with the join request echoed before the names list. *)
Definition handshake_joined : list recv_event :=
  [ RecvData (line ":srv CAP * LS :metadata-2");
    RecvData (line ":srv 005 nick METADATA=1 :are supported by this server");
    RecvData (line ":srv PONG srv :srv");
    RecvData (line ":nick!u@h JOIN #foo");
    RecvData (line ":srv 366 nick #foo :End of /NAMES list.");
    RecvTimeout ].

(** The peer of a [set] followed by a [get]: it acknowledges the
    [set] and answers the [get] with the payload that was set. *)
Definition echo (key : string) (value : pyvalue) : list recv_event :=
  [ RecvData (line (":srv 761 #foo " ++ key ++ " * :" ++ Client.payload value)
              ++ line ":srv 762 #foo :end of metadata");
    RecvData (line (":srv 761 #foo " ++ key ++ " * :" ++ Client.payload value)) ].

Definition set_then_get (key : string) (value : pyvalue) : M pyvalue :=
  Client.set key value ;; Client.get key.

End Scenario.

(** ** The constructor of the store *)




Module Construction.



End Construction.

(** ** Vocabulary of the statements *)

(** Lines without a command. *)

Fixpoint spaces (n : nat) : string :=
  match n with
  | O => ""
  | S k => String " " (spaces k)
  end.

Definition no_space (w : string) : bool :=
  all_chars (fun c => negb (Ascii.eqb c " ")) w.

(** The text that is left once the tag segment is gone and that holds
    no command: blanks only; a prefix and blanks; or blanks and a
    trailing parameter that starts with a colon, which the parser takes
    for the prefix. *)
Inductive commandless : string -> Prop :=
| blank_text (n : nat) : commandless (spaces n)
| prefix_text (w : string) (n : nat) :
    no_space w = true -> commandless (":" ++ w ++ spaces n)
| prefix_trailing (k : nat) (x : string) :
    contains " :" x = false -> commandless (spaces k ++ " ::" ++ x).

Inductive no_command_line : string -> Prop :=
| untagged_line (r : string) : commandless r -> no_command_line r
| tagged_line (t r : string) :
    no_space t = true -> commandless r ->
    no_command_line ("@" ++ t ++ " " ++ r).

(** A packet that keeps the receiving loop going: it holds bytes and
    does not end with CR LF. *)
Definition open_chunk (c : string) : bool :=
  truthy c && negb (endswith c CRLF).

Definition packets (chunks : list string) : list recv_event :=
  map RecvData chunks.

(** The bytes of the packets, in order. *)
Definition gather (chunks : list string) : string :=
  fold_right String.append "" chunks.

(** What the script of a socket can still deliver, counted as in
    [budget]. *)
Definition pending (st : IrcClient) : nat :=
  match conn st with
  | Some sock => script_size (incoming sock)
  | None => 0
  end.

(** A computation that has not run out of fuel. *)
Definition fueled {A} (x : outcome A) : Prop := x <> OutOfFuel.

(** A computation that returns or raises. *)
Definition settled {A} (x : outcome A) : Prop :=
  match x with
  | Ok _ | Raise _ => True
  | Blocked | OutOfFuel => False
  end.

(** A word: some characters, none of them a space. *)
Definition word (w : string) : bool := truthy w && no_space w.

(** A word that does not start with a colon. *)
Definition plain (w : string) : bool := word w && negb (startswith w ":").

(** The line of a message: the prefix after a colon, the command, the
    parameters, and last, after [" :"], the trailing parameter. *)
Definition render (pfx : option string) (cmd : string) (ps : list string)
    (trailing : option string) : string :=
  (String.concat " "
     (match pfx with
      | Some p => [(":" ++ p)%string]
      | None => []
      end ++ cmd :: ps)
   ++ match trailing with
      | Some t => " :" ++ t
      | None => ""
      end)%string.

Definition trailing_params (trailing : option string) : list string :=
  match trailing with
  | Some t => [t]
  | None => []
  end.

(** The bytes of lines that each end with CR LF. *)
Definition frame (lines : list string) : string :=
  fold_right (fun l rest => (l ++ CRLF ++ rest)%string) "" lines.

(** What [sendLine] hands to [sendall] for a line. *)
Definition wire (line : string) : list string :=
  line :: (if endswith line CRLF then [] else [CRLF]).


(** The client once it has written [lines] and is left with [inbox]. *)
Definition greeted (st : IrcClient) (sock : Socket) (inbox : list Message)
    (lines : list string) : IrcClient :=
  mkIrcClient (name st) (show_io st) inbox
    (Some (mkSocket (incoming sock) (outgoing sock ++ lines))) (nick st).

(** [n] calls of [getMessage] without a filter, and what they return. *)
Fixpoint getMessage_times (n : nat) : M (list Message) :=
  match n with
  | O => ret []
  | S k =>
      m <- getMessage None ;;
      ms <- getMessage_times k ;;
      ret (m :: ms)
  end.


(** What [delete_multi] writes for its keys. *)
Definition delete_lines (keys : list string) : list string :=
  flat_map (fun key => wire ("METADATA #foo SET " ++ key)) keys.

(** The replies that acknowledge one request of [set] or [delete]. *)
Definition acknowledged (m1 m2 : Message) : bool :=
  String.eqb (command m1) "761" && String.eqb (command m2) "762".

(** * Properties *)

(** ** The model on examples *)

Example parse_privmsg :
  parse_message (":nick!u@h PRIVMSG #chan :hello world" ++ CRLF)
  = Ok (mkMessage [] (Some "nick!u@h") "PRIVMSG" ["#chan"; "hello world"]).
Proof. reflexivity. Qed.

Example parse_tagged :
  parse_message ("@a=b  005 n  METADATA=1 :are supported" ++ CRLF)
  = Ok (mkMessage [] None "005" ["n"; "METADATA=1"; "are supported"]).
Proof. reflexivity. Qed.

Example parse_two_trailing :
  parse_message ("PRIVMSG #c :a :b" ++ CRLF) = Raise ValueError.
Proof. reflexivity. Qed.

Example parse_empty : parse_message CRLF = Raise IndexError.
Proof. reflexivity. Qed.

Example parse_colon_only :
  parse_message (" :" ++ CRLF) = Ok (mkMessage [] None "" []).
Proof. reflexivity. Qed.

Example int_42 : PyIntParse.of_string " +4_2 " = Ok 42%Z.
Proof. reflexivity. Qed.

Example int_neg : PyIntParse.of_string (format_value (PyInt (-17))) = Ok (-17)%Z.
Proof. reflexivity. Qed.

Example int_bad : PyIntParse.of_string "4__2" = Raise ValueError.
Proof. reflexivity. Qed.


(** ** Facts on strings *)

Module PyStrFacts.

Lemma append_nil_r (s : string) : (s ++ "")%string = s.
Proof. induction s as [|c s IH]; simpl; [reflexivity | now rewrite IH]. Qed.

Lemma append_assoc (a b c : string) :
  ((a ++ b) ++ c)%string = (a ++ (b ++ c))%string.
Proof. induction a as [|x a IH]; simpl; [reflexivity | now rewrite IH]. Qed.

Lemma length_append (a b : string) :
  String.length (a ++ b) = String.length a + String.length b.
Proof. induction a as [|x a IH]; simpl; [reflexivity | now rewrite IH]. Qed.

Lemma startswith_append (p s : string) : startswith (p ++ s) p = true.
Proof.
  induction p as [|c p IH]; simpl; [reflexivity|].
  now rewrite Ascii.eqb_refl.
Qed.

Lemma startswith_split (p s : string) :
  startswith s p = true -> s = (p ++ drop (String.length p) s)%string.
Proof.
  revert s; induction p as [|c p IH]; intros s H; simpl in *.
  - reflexivity.
  - destruct s as [|d s]; [discriminate|].
    apply andb_true_iff in H as [E H]. apply Ascii.eqb_eq in E. subst d.
    simpl. now rewrite <- (IH s H).
Qed.

Lemma startswith_length (p s : string) :
  startswith s p = true -> String.length p <= String.length s.
Proof.
  revert s; induction p as [|c p IH]; intros s H; simpl in *; [lia|].
  destruct s as [|d s]; [discriminate|].
  apply andb_true_iff in H as [_ H]. specialize (IH s H). simpl. lia.
Qed.

Lemma startswith_longer (p s t : string) :
  startswith s p = true -> startswith (s ++ t) p = true.
Proof.
  revert s; induction p as [|c p IH]; intros s H; simpl in *; [reflexivity|].
  destruct s as [|d s]; [discriminate|]. simpl.
  apply andb_true_iff in H as [E H]. rewrite E. simpl. now apply IH.
Qed.

Lemma drop_append (p s : string) : drop (String.length p) (p ++ s) = s.
Proof. induction p as [|c p IH]; simpl; [reflexivity | exact IH]. Qed.

Lemma take_append (p s : string) : take (String.length p) (p ++ s) = p.
Proof. induction p as [|c p IH]; simpl; [reflexivity | now rewrite IH]. Qed.

Lemma endswith_append (s p : string) : endswith (s ++ p) p = true.
Proof.
  unfold endswith. rewrite length_append.
  replace (String.length s + String.length p - String.length p)
    with (String.length s) by lia.
  rewrite drop_append, String.eqb_refl, andb_true_r.
  apply Nat.leb_le; lia.
Qed.

Lemma chop_append (s p : string) : chop (String.length p) (s ++ p) = s.
Proof.
  unfold chop. rewrite length_append.
  replace (String.length s + String.length p - String.length p)
    with (String.length s) by lia.
  apply take_append.
Qed.

Lemma take_drop (n : nat) (s : string) : (take n s ++ drop n s)%string = s.
Proof.
  revert s; induction n as [|n IH]; intros [|c s]; simpl; try reflexivity.
  now rewrite IH.
Qed.

Lemma endswith_split (s p : string) :
  endswith s p = true -> s = (chop (String.length p) s ++ p)%string.
Proof.
  unfold endswith, chop. intros H.
  apply andb_true_iff in H as [_ H]. apply String.eqb_eq in H.
  rewrite <- (take_drop (String.length s - String.length p) s) at 1.
  now rewrite H.
Qed.

(** The two parts [partition] returns surround the separator. *)
Lemma partition_sound (sep s a b : string) :
  partition sep s = Some (a, b) -> s = (a ++ sep ++ b)%string.
Proof.
  revert a b; induction s as [|c s IH]; intros a b H; [discriminate|].
  cbn [partition] in H.
  destruct (startswith (String c s) sep) eqn:P.
  - injection H as <- <-. simpl. now apply startswith_split.
  - destruct (partition sep s) as [[a' b']|]; [|discriminate].
    injection H as <- <-. simpl. now rewrite <- (IH a' b' eq_refl).
Qed.

Lemma partition_shorter (sep s a b : string) :
  partition sep s = Some (a, b) ->
  String.length s = String.length a + String.length sep + String.length b.
Proof.
  intros H. rewrite (partition_sound _ _ _ _ H) at 1.
  rewrite !length_append. lia.
Qed.

(** The text before the first occurrence holds no occurrence. *)
Lemma partition_first (sep s a b : string) :
  partition sep s = Some (a, b) -> partition sep a = None.
Proof.
  revert a b; induction s as [|c s IH]; intros a b H; [discriminate|].
  cbn [partition] in H.
  destruct (startswith (String c s) sep) eqn:P.
  - injection H as <- <-. now destruct sep.
  - destruct (partition sep s) as [[a' b']|] eqn:E; [|discriminate].
    injection H as <- <-. cbn [partition].
    rewrite (IH a' b' eq_refl).
    destruct (startswith (String c a') sep) eqn:P'; [|reflexivity].
    exfalso. rewrite (partition_sound _ _ _ _ E) in P.
    change (String c (a' ++ sep ++ b')%string)
      with (String c a' ++ (sep ++ b'))%string in P.
    rewrite (startswith_longer _ _ _ P') in P. discriminate.
Qed.

Lemma contains_true (sep s : string) :
  contains sep s = true -> exists a b, partition sep s = Some (a, b).
Proof.
  unfold contains. destruct (partition sep s) as [[a b]|]; [|discriminate].
  intros _. now exists a, b.
Qed.

Lemma contains_false (sep s : string) :
  contains sep s = false -> partition sep s = None.
Proof.
  unfold contains. now destruct (partition sep s) as [[a b]|].
Qed.

(** [split] when the separator occurs once, and when it occurs more. *)
Lemma split_once (sep s a b : string) :
  partition sep s = Some (a, b) -> contains sep b = false ->
  split sep s = [a; b].
Proof.
  intros H Hb. unfold split.
  pose proof (partition_shorter _ _ _ _ H) as L.
  destruct (String.length s) as [|n] eqn:E.
  - destruct s; [discriminate H | discriminate E].
  - cbn [split_fuel]. rewrite H. f_equal.
    apply contains_false in Hb. destruct n; cbn [split_fuel]; [reflexivity|].
    now rewrite Hb.
Qed.

Lemma split_more (sep s a b : string) :
  sep <> "" -> partition sep s = Some (a, b) -> contains sep b = true ->
  exists c d r, split sep s = a :: c :: d :: r.
Proof.
  intros Hsep H Hb. unfold split.
  pose proof (partition_shorter _ _ _ _ H) as L.
  apply contains_true in Hb as (c & d & Hb).
  pose proof (partition_shorter _ _ _ _ Hb) as L'.
  assert (0 < String.length sep) by (destruct sep; [congruence | simpl; lia]).
  destruct (String.length s) as [|[|n]] eqn:E; try lia.
  cbn [split_fuel]. rewrite H, Hb.
  destruct (split_fuel n sep d) as [|x r] eqn:F.
  - destruct n; simpl in F; [discriminate|].
    destruct (partition sep d) as [[? ?]|]; discriminate.
  - now exists c, x, r.
Qed.

Lemma split_none (sep s : string) :
  partition sep s = None -> split sep s = [s].
Proof.
  intros H. unfold split. destruct (String.length s); cbn [split_fuel];
    [reflexivity | now rewrite H].
Qed.

Lemma nonempty_truthy (l : list string) (x : string) :
  In x (nonempty l) -> x <> "".
Proof.
  unfold nonempty. intros H. apply filter_In in H as [_ H].
  now destruct x.
Qed.

End PyStrFacts.

(** ** The parser *)

Module ParserFacts.
Import PyStrFacts.

Lemma assemble_command_in (tokens : list string) (m : Message) :
  assemble tokens = Ok m -> In (command m) tokens.
Proof.
  destruct tokens as [|t0 rest]; [discriminate|]. unfold assemble.
  destruct (startswith t0 ":"); cbv beta iota zeta.
  - destruct rest as [|c ps]; [discriminate|].
    injection 1 as <-. simpl. auto.
  - injection 1 as <-. simpl. auto.
Qed.

(** The tokens of a line with one [" :"], and of a line with more. *)
Lemma tokenize_trailing_once (s a b : string) :
  partition " :" s = Some (a, b) -> contains " :" b = false ->
  tokenize s = Ok (nonempty (split " " a) ++ [b]).
Proof.
  intros H Hb. unfold tokenize, contains at 1. rewrite H.
  now rewrite (split_once _ _ _ _ H Hb).
Qed.

Lemma tokenize_trailing_twice (s a b : string) :
  partition " :" s = Some (a, b) -> contains " :" b = true ->
  tokenize s = Raise ValueError.
Proof.
  intros H Hb. unfold tokenize, contains at 1. rewrite H.
  destruct (split_more " :" s a b) as (c & d & r & E);
    [discriminate | exact H | exact Hb |].
  now rewrite E.
Qed.

Lemma tokenize_no_trailing (s : string) :
  contains " :" s = false -> tokenize s = Ok (nonempty (split " " s)).
Proof. intros H. unfold tokenize. now rewrite H. Qed.

(** Only an empty trailing parameter makes an empty token. *)
Lemma tokenize_empty_token (s : string) (tokens : list string) :
  tokenize s = Ok tokens -> In "" tokens -> endswith s " :" = true.
Proof.
  intros H Hin.
  destruct (contains " :" s) eqn:C.
  - destruct (contains_true _ _ C) as (a & b & P).
    destruct (contains " :" b) eqn:Cb.
    + rewrite (tokenize_trailing_twice _ _ _ P Cb) in H. discriminate.
    + rewrite (tokenize_trailing_once _ _ _ P Cb) in H.
      injection H as <-.
      apply in_app_or in Hin as [Hin|[<-|[]]].
      * now apply nonempty_truthy in Hin.
      * rewrite (partition_sound _ _ _ _ P).
        change (" :" ++ "")%string with " :". apply endswith_append.
  - rewrite (tokenize_no_trailing _ C) in H. injection H as <-.
    now apply nonempty_truthy in Hin.
Qed.

(** The tokens: words that are not empty and, last, the trailing
    parameter when there is one. *)
Lemma tokenize_shape (s : string) (tokens : list string) :
  tokenize s = Ok tokens ->
  exists words last,
    tokens = words ++ last
    /\ (forall x, In x words -> x <> "")
    /\ (last = [] \/ exists trailing, last = [trailing]).
Proof.
  intros H.
  destruct (contains " :" s) eqn:C.
  - destruct (contains_true _ _ C) as (a & b & P).
    destruct (contains " :" b) eqn:Cb.
    + rewrite (tokenize_trailing_twice _ _ _ P Cb) in H. discriminate.
    + rewrite (tokenize_trailing_once _ _ _ P Cb) in H.
      injection H as <-.
      exists (nonempty (split " " a)), [b].
      split; [reflexivity|]. split; [apply nonempty_truthy | eauto].
  - rewrite (tokenize_no_trailing _ C) in H. injection H as <-.
    exists (nonempty (split " " s)), [].
    split; [now rewrite app_nil_r|]. split; [apply nonempty_truthy | auto].
Qed.

(** An empty command is the last token. *)
Lemma assemble_empty_command (words last : list string) (m : Message) :
  assemble (words ++ last) = Ok m ->
  (forall x, In x words -> x <> "") ->
  (last = [] \/ exists trailing, last = [trailing]) ->
  command m = "" -> params m = [].
Proof.
  intros A W L C. unfold assemble in A.
  destruct words as [|p words].
  - destruct L as [->|[tr ->]]; cbn [app] in A; [discriminate|].
    destruct (startswith tr ":"); cbv beta iota zeta in A; [discriminate|].
    now injection A as <-.
  - cbn [app] in A.
    destruct (startswith p ":"); cbv beta iota zeta in A.
    + destruct words as [|q words].
      * destruct L as [->|[tr ->]]; cbn [app] in A; [discriminate|].
        now injection A as <-.
      * cbn [app] in A. injection A as <-. cbn [command] in C.
        exfalso. apply (W q); [right; now left | exact C].
    + injection A as <-. cbn [command] in C.
      exfalso. apply (W p); [now left | exact C].
Qed.

Lemma strip_tags_suffix (s r : string) :
  strip_tags s = Ok r -> exists p, s = (p ++ r)%string.
Proof.
  unfold strip_tags, split1. destruct (startswith s "@").
  - destruct (partition " " s) as [[a b]|] eqn:P; [|discriminate].
    injection 1 as <-. exists (a ++ " ")%string.
    rewrite append_assoc. now apply partition_sound.
  - injection 1 as <-. now exists "".
Qed.

Lemma endswith_suffix (p r x : string) :
  endswith r x = true -> endswith (p ++ r) x = true.
Proof.
  intros H. rewrite (endswith_split _ _ H), <- append_assoc.
  apply endswith_append.
Qed.

Lemma parse_message_stages (s : string) (m : Message) :
  parse_message s = Ok m ->
  endswith s CRLF = true /\
  exists r tokens,
    strip_tags (chop 2 s) = Ok r /\ tokenize r = Ok tokens /\
    assemble tokens = Ok m.
Proof.
  unfold parse_message. destruct (endswith s CRLF); [|discriminate].
  cbn [negb]. cbv zeta.
  destruct (strip_tags (chop 2 s)) as [r| | |] eqn:Hs; cbn [obind];
    try discriminate.
  destruct (tokenize r) as [tokens| | |] eqn:Ht; cbn [obind];
    try discriminate.
  intros H. split; [reflexivity|]. now exists r, tokens.
Qed.

Lemma parse_message_line (body : string) :
  parse_message (body ++ CRLF)
  = obind (strip_tags body) (fun s => obind (tokenize s) assemble).
Proof.
  unfold parse_message. rewrite endswith_append. cbn [negb]. cbv zeta.
  change 2 with (String.length CRLF). now rewrite chop_append.
Qed.

End ParserFacts.

(** C2.  A line with a second [" :"] after the first one is not parsed
    into a message whose trailing parameter holds the rest of the line:
    [s.split(' :')] cuts at every occurrence, the two names of line 36
    cannot take three parts, and the parser raises [ValueError]. *)
Theorem parse_message_second_trailing_marker :
  parse_message ("PRIVMSG #c :a :b" ++ CRLF) = Raise ValueError.
Proof. reflexivity. Qed.

(** C4 (counterexample).  The line [" :"] is parsed, and its command
    is the empty trailing parameter. *)
Lemma parse_message_empty_command :
  exists m, parse_message (" :" ++ CRLF) = Ok m /\ command m = "".
Proof. eexists. split; reflexivity. Qed.

(** C4 (amended).  When a line is parsed, the command of the message is
    not empty, unless the text of the line ends with [" :"] and the
    message has no parameter: the empty trailing parameter is then the
    command. *)
Theorem parse_message_command_nonempty (s : string) (m : Message) :
  parse_message s = Ok m ->
  endswith (chop 2 s) " :" = false \/ params m <> [] ->
  command m <> "".
Proof.
  intros H E C.
  destruct (ParserFacts.parse_message_stages _ _ H)
    as (_ & r & tokens & Hs & Ht & Ha).
  destruct E as [E|E].
  - apply ParserFacts.assemble_command_in in Ha. rewrite C in Ha.
    pose proof (ParserFacts.tokenize_empty_token _ _ Ht Ha) as Hr.
    destruct (ParserFacts.strip_tags_suffix _ _ Hs) as (p & Hp).
    rewrite Hp, (ParserFacts.endswith_suffix _ _ _ Hr) in E. discriminate.
  - destruct (ParserFacts.tokenize_shape _ _ Ht) as (words & last & -> & W & L).
    exact (E (ParserFacts.assemble_empty_command _ _ _ Ha W L C)).
Qed.

Lemma parse_message_command_nonempty_witness :
  parse_message ("PRIVMSG #chan :" ++ CRLF)
  = Ok (mkMessage [] None "PRIVMSG" ["#chan"; ""])
  /\ "PRIVMSG" <> "".
Proof.
  split; [reflexivity|].
  apply (parse_message_command_nonempty
           ("PRIVMSG #chan :" ++ CRLF)
           (mkMessage [] None "PRIVMSG" ["#chan"; ""]));
    [reflexivity | right; discriminate].
Defined.

Module CommandlessFacts.
Import PyStrFacts ParserFacts.

Lemma length_spaces (n : nat) : String.length (spaces n) = n.
Proof. induction n; simpl; [reflexivity | now rewrite IHn]. Qed.

Lemma partition_past_word (sep' w r : string) :
  no_space w = true ->
  partition (String " " sep') (w ++ r)
  = match partition (String " " sep') r with
    | Some (a, b) => Some ((w ++ a)%string, b)
    | None => None
    end.
Proof.
  intros H. induction w as [|c w IH].
  - simpl. now destruct (partition (String " " sep') r) as [[a b]|].
  - cbn [no_space all_chars] in H. apply andb_true_iff in H as [Hc Hw].
    change (String c w ++ r)%string with (String c (w ++ r)).
    cbn [partition startswith].
    rewrite Ascii.eqb_sym. apply negb_true_iff in Hc. rewrite Hc.
    cbn [andb]. rewrite (IH Hw).
    now destruct (partition (String " " sep') r) as [[a b]|].
Qed.

Lemma partition_word (sep' w : string) :
  no_space w = true -> partition (String " " sep') w = None.
Proof.
  intros H. rewrite <- (append_nil_r w) at 1.
  now rewrite (partition_past_word _ _ _ H).
Qed.

Lemma partition_word_space (w r : string) :
  no_space w = true -> partition " " (w ++ " " ++ r) = Some (w, r).
Proof.
  intros H. rewrite (partition_past_word _ _ _ H).
  cbn. now rewrite append_nil_r.
Qed.

Lemma partition_marker_spaces (n : nat) : partition " :" (spaces n) = None.
Proof.
  induction n as [|n IH]; [reflexivity|].
  cbn [spaces partition startswith]. rewrite IH.
  now destruct n.
Qed.

Lemma partition_spaces_marker (k : nat) (y : string) :
  partition " :" (spaces k ++ " :" ++ y) = Some (spaces k, y).
Proof.
  induction k as [|k IH]; [reflexivity|].
  change (spaces (S k) ++ " :" ++ y)%string
    with (String " " (spaces k ++ " :" ++ y)).
  cbn [partition]. rewrite IH.
  now destruct k.
Qed.

Lemma split_cons (sep s a b : string) :
  partition sep s = Some (a, b) ->
  split sep s = a :: split_fuel (String.length s - 1) sep b.
Proof.
  intros H. unfold split. destruct s as [|c s]; [discriminate|].
  cbn [String.length split_fuel Nat.sub]. rewrite H.
  now rewrite Nat.sub_0_r.
Qed.

Lemma split_spaces (fuel n : nat) :
  n <= fuel -> nonempty (split_fuel fuel " " (spaces n)) = [].
Proof.
  revert n; induction fuel as [|f IH]; intros n Hn.
  - now replace n with 0 by lia.
  - destruct n as [|n]; [reflexivity|].
    cbn. apply IH. lia.
Qed.

Lemma tokens_blank (n : nat) : tokenize (spaces n) = Ok [].
Proof.
  unfold tokenize, contains. rewrite partition_marker_spaces.
  unfold split. rewrite length_spaces. now rewrite split_spaces.
Qed.

Lemma no_space_prefix (w : string) :
  no_space w = true -> no_space (":" ++ w) = true.
Proof. intros H. exact H. Qed.

Lemma tokens_prefix (w : string) (n : nat) :
  no_space w = true ->
  tokenize (":" ++ w ++ spaces n) = Ok [(":" ++ w)%string].
Proof.
  intros H. apply no_space_prefix in H.
  change (":" ++ w ++ spaces n)%string with ((":" ++ w) ++ spaces n)%string.
  unfold tokenize, contains.
  rewrite (partition_past_word _ _ _ H), partition_marker_spaces.
  destruct n as [|n].
  - cbn [spaces]. rewrite append_nil_r.
    now rewrite (split_none _ _ (partition_word _ _ H)).
  - change (spaces (S n)) with (" " ++ spaces n)%string.
    rewrite (split_cons _ _ _ _ (partition_word_space _ _ H)).
    cbn [nonempty filter truthy append]. fold (nonempty).
    rewrite split_spaces; [reflexivity|].
    cbn [String.length]. rewrite length_append. cbn [String.length].
    rewrite length_spaces. lia.
Qed.

Lemma tokens_prefix_trailing (k : nat) (x : string) :
  contains " :" x = false ->
  tokenize (spaces k ++ " ::" ++ x) = Ok [(":" ++ x)%string].
Proof.
  intros H.
  change (spaces k ++ " ::" ++ x)%string
    with (spaces k ++ " :" ++ (":" ++ x))%string.
  rewrite (tokenize_trailing_once _ _ _ (partition_spaces_marker k _)).
  - unfold split. rewrite length_spaces. now rewrite split_spaces.
  - unfold contains in *. cbn [append partition startswith].
    cbn. now destruct (partition " :" x) as [[a b]|].
Qed.

Lemma assemble_prefix_only (w : string) :
  assemble [(":" ++ w)%string] = Raise IndexError.
Proof. reflexivity. Qed.

Lemma commandless_fails (r : string) :
  commandless r -> obind (tokenize r) assemble = Raise IndexError.
Proof.
  intros [n | w n H | k x H].
  - now rewrite tokens_blank.
  - now rewrite (tokens_prefix _ _ H).
  - now rewrite (tokens_prefix_trailing _ _ H).
Qed.

Lemma commandless_untagged (r : string) :
  commandless r -> strip_tags r = Ok r.
Proof.
  intros [n | w n H | k x H]; unfold strip_tags.
  - now destruct n.
  - reflexivity.
  - now destruct k.
Qed.

Lemma strip_tags_tagged (t r : string) :
  no_space t = true -> strip_tags ("@" ++ t ++ " " ++ r) = Ok r.
Proof.
  intros H. unfold strip_tags, split1.
  change ("@" ++ t ++ " " ++ r)%string with (("@" ++ t) ++ " " ++ r)%string.
  rewrite partition_word_space by exact H.
  reflexivity.
Qed.

(** A tag segment with nothing after it: line 34 has one part to
    unpack into two names. *)
Lemma parse_message_tag_only (t : string) :
  no_space t = true -> parse_message ("@" ++ t ++ CRLF) = Raise ValueError.
Proof.
  intros H.
  change ("@" ++ t ++ CRLF)%string with (("@" ++ t) ++ CRLF)%string.
  rewrite parse_message_line. unfold strip_tags, split1.
  rewrite (partition_word "" ("@" ++ t)) by exact H.
  reflexivity.
Qed.

End CommandlessFacts.

(** C8.  A line that holds no command once the tag segment and the
    prefix are taken off is refused: the parser fails, with Python's
    [IndexError], which is the error this program has for a malformed
    message. *)
Theorem parse_message_no_command (body : string) :
  no_command_line body ->
  parse_message (body ++ CRLF) = Raise IndexError.
Proof.
  intros H. rewrite ParserFacts.parse_message_line.
  destruct H as [r H | t r Ht H].
  - rewrite (CommandlessFacts.commandless_untagged _ H). cbn [obind].
    now apply CommandlessFacts.commandless_fails.
  - rewrite (CommandlessFacts.strip_tags_tagged _ _ Ht). cbn [obind].
    now apply CommandlessFacts.commandless_fails.
Qed.

Lemma parse_message_no_command_witness :
  no_command_line "@time=12 :irc.example.org  "
  /\ parse_message ("@time=12 :irc.example.org  " ++ CRLF) = Raise IndexError.
Proof.
  assert (H : no_command_line "@time=12 :irc.example.org  ").
  { apply (tagged_line "time=12" ":irc.example.org  "); [reflexivity|].
    apply (prefix_text "irc.example.org" 2). reflexivity. }
  split; [exact H|].
  apply (parse_message_no_command "@time=12 :irc.example.org  " H).
Defined.

(** ** The reader *)

Module ReaderFacts.
Import PyStrFacts.

Lemma recv_loop_closed (a : bool) (chunks : list string)
    (rest : list recv_event) :
  forallb open_chunk chunks = true ->
  forall data,
    recv_loop a data (packets chunks ++ RecvData "" :: rest)
    = (Raise (NameError "ConnectionClosed"), rest).
Proof.
  induction chunks as [|c chunks IH]; intros H data.
  - reflexivity.
  - cbn [forallb] in H. apply andb_true_iff in H as [Hc H].
    unfold open_chunk in Hc. apply andb_true_iff in Hc as [Ht He].
    apply negb_true_iff in He.
    cbn [packets map app recv_loop]. rewrite Ht, He. cbn [negb].
    apply (IH H).
Qed.

Lemma recv_loop_timeout (chunks : list string) (rest : list recv_event) :
  forallb open_chunk chunks = true ->
  forall data,
    recv_loop true data (packets chunks ++ RecvTimeout :: rest)
    = (Ok (Break (data ++ gather chunks)), rest).
Proof.
  induction chunks as [|c chunks IH]; intros H data.
  - cbn. now rewrite append_nil_r.
  - cbn [forallb] in H. apply andb_true_iff in H as [Hc H].
    unfold open_chunk in Hc. apply andb_true_iff in Hc as [Ht He].
    apply negb_true_iff in He.
    cbn [packets map app recv_loop gather fold_right].
    rewrite Ht, He. cbn [negb].
    fold (packets chunks). rewrite (IH H). fold (gather chunks).
    now rewrite append_assoc.
Qed.

(** An empty read makes [getMessage] raise. *)
Lemma getMessage_empty_read (filter_pred : option (Message -> bool))
    (st st' : IrcClient) :
  inbuffer st = [] ->
  getMessages true st = (Ok [], st') ->
  getMessage filter_pred st
  = (Raise (NameError "NoMessageException"), with_inbuffer st' []).
Proof.
  intros Hin Hget. unfold getMessage, budget.
  cbn [getMessage_loop]. unfold bind. rewrite Hin, Hget. reflexivity.
Qed.

End ReaderFacts.

(** C5.  When the peer closes the connection ([recv] returns no byte),
    [getMessages] raises, whatever it has gathered before in the same
    call and whatever its flag.  The exception is not the one line 89
    names: no [ConnectionClosed] is defined in the module, and evaluating
    that name raises [NameError]. *)
Theorem getMessages_peer_closed (assert_get_one : bool) (st : IrcClient)
    (sock : Socket) (chunks : list string) (rest : list recv_event) :
  conn st = Some sock ->
  incoming sock = packets chunks ++ RecvData "" :: rest ->
  forallb open_chunk chunks = true ->
  getMessages assert_get_one st
  = (Raise (NameError "ConnectionClosed"),
     with_conn st (Some (mkSocket rest (outgoing sock)))).
Proof.
  intros Hc Hi Ho. unfold getMessages. rewrite Hc, Hi.
  now rewrite (ReaderFacts.recv_loop_closed _ _ _ Ho).
Qed.

Lemma getMessages_peer_closed_witness :
  getMessages true
    (Scenario.client [RecvData ":srv 761 #foo k"; RecvData " * :str:b";
                      RecvData ""; RecvTimeout] "abcdefghi")
  = (Raise (NameError "ConnectionClosed"),
     Scenario.client [RecvTimeout] "abcdefghi").
Proof.
  apply (getMessages_peer_closed true
           (Scenario.client [RecvData ":srv 761 #foo k"; RecvData " * :str:b";
                             RecvData ""; RecvTimeout] "abcdefghi")
           (mkSocket [RecvData ":srv 761 #foo k"; RecvData " * :str:b";
                      RecvData ""; RecvTimeout] [])
           [":srv 761 #foo k"; " * :str:b"] [RecvTimeout]);
    reflexivity.
Defined.

(** C6 (counterexample).  Called with its flag set, [getMessages]
    returns the empty list when [recv] times out before any byte: it
    does not fail. *)
Lemma getMessages_blocking_returns_empty :
  fst (getMessages true (Scenario.client [RecvTimeout] "abcdefghi")) = Ok []
  /\ ~ raises (fst (getMessages true
                      (Scenario.client [RecvTimeout] "abcdefghi"))).
Proof.
  split; [reflexivity|]. intros [e H]. discriminate H.
Qed.

(** C6 (amended).  When the receiving loop of [getMessages], called with
    its flag set, ends on a timeout and no message is parsed from the
    bytes gathered, [getMessages] returns the empty list; it is
    [getMessage], which makes that call when its inbox is empty, that
    fails instead of returning. *)
Theorem getMessage_fails_on_empty_read
    (filter_pred : option (Message -> bool)) (st : IrcClient)
    (sock : Socket) (chunks : list string) (rest : list recv_event) :
  conn st = Some sock ->
  inbuffer st = [] ->
  incoming sock = packets chunks ++ RecvTimeout :: rest ->
  forallb open_chunk chunks = true ->
  obind (Utf8.decode (gather chunks))
        (fun text => parse_lines (split CRLF text)) = Ok [] ->
  fst (getMessages true st) = Ok []
  /\ raises (fst (getMessage filter_pred st)).
Proof.
  intros Hc Hb Hi Ho Hp.
  assert (G : getMessages true st
              = (Ok [], with_conn st (Some (mkSocket rest (outgoing sock))))).
  { unfold getMessages. rewrite Hc, Hi.
    rewrite (ReaderFacts.recv_loop_timeout _ _ Ho).
    cbn [String.append]. now rewrite Hp. }
  split; [now rewrite G|].
  rewrite (ReaderFacts.getMessage_empty_read filter_pred _ _ Hb G).
  now eexists.
Qed.

Lemma getMessage_fails_on_empty_read_witness :
  fst (getMessages true
         (Scenario.client [RecvData (String CR ""); RecvData (String LF "");
                           RecvTimeout] "abcdefghi")) = Ok []
  /\ raises (fst (getMessage None
         (Scenario.client [RecvData (String CR ""); RecvData (String LF "");
                           RecvTimeout] "abcdefghi"))).
Proof.
  apply (getMessage_fails_on_empty_read None
           (Scenario.client [RecvData (String CR ""); RecvData (String LF "");
                             RecvTimeout] "abcdefghi")
           (mkSocket [RecvData (String CR ""); RecvData (String LF "");
                      RecvTimeout] [])
           [String CR ""; String LF ""] []);
    reflexivity.
Defined.

(** ** The store *)

(** C7.  A key with a character outside the allowed set makes [set]
    and [get] raise before anything is sent: the client is left as it
    was.  [set] raises [MemcachedKeyCharacterError]; [get] names that
    class without [self], and raises [NameError] in its place. *)
Theorem invalid_key_refused (key : string) (value : pyvalue) (st : IrcClient) :
  isvalidkey key = false ->
  Client.set key value st = (Raise (MemcachedKeyCharacterError key), st)
  /\ Client.get key st = (Raise (NameError "MemcachedKeyCharacterError"), st).
Proof.
  intros H. unfold Client.set, Client.get. rewrite H. split; reflexivity.
Qed.

Lemma invalid_key_refused_witness :
  isvalidkey "a b" = false
  /\ Client.set "a b" (PyStr "bar") (Scenario.client [] "abcdefghi")
     = (Raise (MemcachedKeyCharacterError "a b"),
        Scenario.client [] "abcdefghi")
  /\ Client.get "a b" (Scenario.client [] "abcdefghi")
     = (Raise (NameError "MemcachedKeyCharacterError"),
        Scenario.client [] "abcdefghi").
Proof.
  split; [reflexivity|].
  apply (invalid_key_refused "a b" (PyStr "bar")
           (Scenario.client [] "abcdefghi")).
  reflexivity.
Defined.

Module StoreFacts.

(** Reading leaves what was written as it is. *)
Lemma getMessages_sent (a : bool) (st : IrcClient) :
  sent (snd (getMessages a st)) = sent st.
Proof.
  unfold getMessages. destruct (conn st) as [sock|] eqn:C; [|reflexivity].
  destruct (recv_loop a "" (incoming sock)) as [[[|data]|e| |] rest];
    unfold sent; cbn; now rewrite ?C.
Qed.

Lemma getMessage_loop_sent (fuel : nat)
    (filter_pred : option (Message -> bool)) (st : IrcClient) :
  sent (snd (getMessage_loop fuel filter_pred st)) = sent st.
Proof.
  revert st; induction fuel as [|fuel IH]; intros st; [reflexivity|].
  cbn [getMessage_loop]. unfold bind at 1.
  destruct (inbuffer st) as [|m0 rest0] eqn:B.
  - unfold bind. pose proof (getMessages_sent true st) as G.
    destruct (getMessages true st) as [[msgs|e| |] st1]; cbn [snd] in G;
      try exact G.
    cbn [inbuffer with_inbuffer].
    destruct msgs as [|m rest]; [exact G|].
    destruct (accepts filter_pred m); [exact G|].
    rewrite IH. exact G.
  - rewrite B. destruct (accepts filter_pred m0); [reflexivity|].
    now rewrite IH.
Qed.

Lemma getMessage_sent (filter_pred : option (Message -> bool))
    (st : IrcClient) :
  sent (snd (getMessage filter_pred st)) = sent st.
Proof. apply getMessage_loop_sent. Qed.

Lemma sendLine_connected (line : string) (st : IrcClient) (sock : Socket) :
  conn st = Some sock ->
  exists st',
    sendLine line st = (Ok tt, st')
    /\ sent st'
       = sent st ++ line :: (if endswith line CRLF then [] else [CRLF])
    /\ inbuffer st' = inbuffer st
    /\ exists sock',
         conn st' = Some sock' /\ incoming sock' = incoming sock.
Proof.
  intros C. unfold sendLine, bind, sendall, sent. rewrite C. cbn.
  destruct (endswith line CRLF); cbn.
  - eexists. split; [reflexivity|]. cbn. repeat split. eauto.
  - eexists. split; [reflexivity|]. cbn. rewrite <- app_assoc.
    repeat split. eauto.
Qed.

Lemma type_tag_cases (value : pyvalue) :
  Client.type_tag value
  = match value with
    | PyBool _ => "bool"
    | PyInt _ => "int"
    | _ => "str"
    end.
Proof. now destruct value. Qed.

Lemma assert_command_sent (m : Message) (c : string) (st : IrcClient) :
  sent (snd (Client.assert_command m c st)) = sent st.
Proof.
  unfold Client.assert_command. now destruct (String.eqb (command m) c).
Qed.

(** The acknowledgements of [set] are read and nothing is written. *)
Lemma set_replies_sent (st : IrcClient) :
  sent (snd ((m <- getMessage None ;;
              Client.assert_command m "761" ;;
              m <- getMessage None ;;
              Client.assert_command m "762") st)) = sent st.
Proof.
  unfold bind.
  pose proof (getMessage_sent None st) as G1.
  destruct (getMessage None st) as [[m1|e| |] st1]; cbn [snd] in *;
    try exact G1.
  pose proof (assert_command_sent m1 "761" st1) as A1.
  destruct (Client.assert_command m1 "761" st1) as [[[]|e| |] st2];
    cbn [snd] in *; try congruence.
  pose proof (getMessage_sent None st2) as G2.
  destruct (getMessage None st2) as [[m2|e| |] st3]; cbn [snd] in *;
    try congruence.
  pose proof (assert_command_sent m2 "762" st3) as A2.
  destruct (Client.assert_command m2 "762" st3) as [[[]|e| |] st4];
    cbn [snd] in *; congruence.
Qed.

End StoreFacts.

(** C9.  The line [set] writes carries a type tag that follows the class
    of the value, [bool] tested before [int]: a boolean is tagged
    ["bool"], an integer ["int"], any other value ["str"]. *)
Theorem set_type_tag (key : string) (value : pyvalue) (st : IrcClient)
    (sock : Socket) :
  isvalidkey key = true ->
  conn st = Some sock ->
  let tag := match value with
             | PyBool _ => "bool"
             | PyInt _ => "int"
             | _ => "str"
             end in
  let line := ("METADATA #foo SET " ++ key ++ " :"
               ++ tag ++ ":" ++ format_value value)%string in
  Client.type_tag value = tag
  /\ sent (snd (Client.set key value st))
     = sent st ++ line :: (if endswith line CRLF then [] else [CRLF]).
Proof.
  intros K C tag line.
  split; [apply StoreFacts.type_tag_cases|].
  unfold Client.set. rewrite K. cbn [negb].
  destruct (StoreFacts.sendLine_connected line st sock C)
    as (st' & S & Hs & _).
  assert (E : ("METADATA " ++ Client.channel ++ " SET " ++ key ++ " :"
               ++ Client.payload value)%string = line).
  { unfold line, tag, Client.payload.
    rewrite StoreFacts.type_tag_cases. reflexivity. }
  rewrite E. unfold bind at 1. rewrite S.
  now rewrite StoreFacts.set_replies_sent.
Qed.

Lemma set_type_tag_witness :
  Client.type_tag (PyBool true) = "bool"
  /\ sent (snd (Client.set "foo" (PyBool true)
                  (Scenario.client (Scenario.echo "foo" (PyBool true))
                                   "abcdefghi")))
     = ["METADATA #foo SET foo :bool:True"; CRLF].
Proof.
  apply (set_type_tag "foo" (PyBool true)
           (Scenario.client (Scenario.echo "foo" (PyBool true)) "abcdefghi")
           (mkSocket (Scenario.echo "foo" (PyBool true)) []));
    reflexivity.
Defined.

Module DecodeFacts.
Import PyStrFacts.

Lemma partition_colon (tag value : string) :
  contains ":" tag = false ->
  partition ":" (tag ++ ":" ++ value) = Some (tag, value).
Proof.
  induction tag as [|d tag IH]; intros H; [reflexivity|].
  apply contains_false in H. cbn [partition] in H.
  change (String d tag ++ ":" ++ value)%string
    with (String d (tag ++ ":" ++ value)).
  cbn [partition].
  destruct (startswith (String d tag) ":") eqn:S; [discriminate|].
  cbn [startswith] in S |- *. rewrite andb_true_r in S. rewrite S.
  cbn [andb]. rewrite IH; [reflexivity|].
  unfold contains. now destruct (partition ":" tag) as [[a b]|].
Qed.

(** A payload with a tag other than ["bool"] and ["int"] decodes to
    the text after the first colon. *)
Lemma decode_other_tag (tag value : string) :
  contains ":" tag = false -> tag <> "bool" -> tag <> "int" ->
  Client.decode (tag ++ ":" ++ value) = Ok (PyStr value).
Proof.
  intros H Hb Hi. unfold Client.decode, split1.
  rewrite (partition_colon _ _ H).
  apply String.eqb_neq in Hb, Hi. now rewrite Hb, Hi.
Qed.

Lemma decode_bool (value : string) :
  Client.decode ("bool:" ++ value) = Ok (PyBool (truthy value)).
Proof. reflexivity. Qed.

Lemma decode_str (s : string) :
  Client.decode (Client.payload (PyStr s)) = Ok (PyStr s).
Proof. reflexivity. Qed.

(** The values of the round trip other than [False] come back. *)
Lemma decode_payload_listed (v : pyvalue) :
  In v [PyBool true; PyInt 0; PyInt 42; PyStr "bar"] ->
  Client.decode (Client.payload v) = Ok v.
Proof.
  intros [<-|[<-|[<-|[<-|[]]]]]; reflexivity.
Qed.

(** [False] is written as ["bool:False"], and the text ["False"] is
    not empty: it is read back as [True]. *)
Lemma decode_payload_false :
  Client.decode (Client.payload (PyBool false)) = Ok (PyBool true).
Proof. reflexivity. Qed.

End DecodeFacts.

(** C1.  [set(key, False)] followed by [get(key)], the server echoing
    the payload that was set, does not give [False] back: line 215
    applies [bool] to the text ["False"], which is true as any text
    that is not empty. *)
Theorem set_false_then_get_true :
  fst (Scenario.set_then_get "foo" (PyBool false)
         (Scenario.client (Scenario.echo "foo" (PyBool false)) "abcdefghi"))
  = Ok (PyBool true).
Proof. reflexivity. Qed.

(** C10.  When the reply to [get] is a 761 for the key and the tag of
    its payload, the text before the first colon, is neither ["bool"]
    nor ["int"], [get] returns the text after that colon as a string. *)
Theorem get_other_tag_raw (key tag value : string) (st st1 st2 : IrcClient)
    (m : Message) :
  isvalidkey key = true ->
  sendLine ("METADATA #foo GET " ++ key) st = (Ok tt, st1) ->
  getMessage None st1 = (Ok m, st2) ->
  command m = "761" ->
  nth_error (params m) 1 = Some key ->
  nth_error (params m) 3 = Some (tag ++ ":" ++ value)%string ->
  contains ":" tag = false -> tag <> "bool" -> tag <> "int" ->
  Client.get key st = (Ok (PyStr value), st2).
Proof.
  intros K S G C P1 P3 Ht Hb Hi.
  unfold Client.get. rewrite K. cbn [negb].
  change ("METADATA " ++ Client.channel ++ " GET " ++ key)%string
    with ("METADATA #foo GET " ++ key)%string.
  unfold bind at 1. rewrite S. unfold bind at 1. rewrite G.
  rewrite C. cbn [String.eqb Ascii.eqb Bool.eqb]. cbv iota.
  unfold Client.assert_command. rewrite C.
  unfold bind, ret, lift, index. cbn [String.eqb Ascii.eqb Bool.eqb].
  cbv iota. rewrite P1, String.eqb_refl. cbn [negb]. rewrite P3.
  now rewrite (DecodeFacts.decode_other_tag _ _ Ht Hb Hi).
Qed.

Lemma get_other_tag_raw_witness :
  Client.get "foo"
    (Scenario.client [RecvData (Scenario.line ":srv 761 #foo foo * :float:1.5");
                      RecvTimeout] "abcdefghi")
  = (Ok (PyStr "1.5"),
     mkIrcClient "irc" false []
       (Some (mkSocket [RecvTimeout] ["METADATA #foo GET foo"; CRLF]))
       "abcdefghi").
Proof.
  apply (get_other_tag_raw "foo" "float" "1.5"
           (Scenario.client
              [RecvData (Scenario.line ":srv 761 #foo foo * :float:1.5");
               RecvTimeout] "abcdefghi")
           (mkIrcClient "irc" false []
              (Some (mkSocket
                       [RecvData
                          (Scenario.line ":srv 761 #foo foo * :float:1.5");
                        RecvTimeout] ["METADATA #foo GET foo"; CRLF]))
              "abcdefghi")
           (mkIrcClient "irc" false []
              (Some (mkSocket [RecvTimeout] ["METADATA #foo GET foo"; CRLF]))
              "abcdefghi")
           (mkMessage [] (Some "srv") "761" ["#foo"; "foo"; "*"; "float:1.5"]));
    try reflexivity; discriminate.
Defined.

(** ** The handshake *)

Module HandshakeFacts.

Lemma with_inbuffer_same (st : IrcClient) :
  with_inbuffer st (inbuffer st) = st.
Proof. now destruct st. Qed.

(** A message of the inbox is taken without reading the socket. *)
Lemma getMessage_inbuffer (st : IrcClient) (m : Message)
    (rest : list Message) :
  inbuffer st = m :: rest ->
  getMessage None st = (Ok m, with_inbuffer st rest).
Proof.
  intros B. unfold getMessage, budget. cbn [getMessage_loop].
  unfold bind. rewrite B. cbn [inbuffer]. now rewrite B.
Qed.

(** A packet that ends with CR LF is read in one [recv]. *)
Lemma getMessages_packet (a : bool) (st : IrcClient) (sock : Socket)
    (data : string) (rest : list recv_event) :
  conn st = Some sock ->
  incoming sock = RecvData data :: rest ->
  endswith data CRLF = true ->
  getMessages a st
  = (obind (Utf8.decode data) (fun text => parse_lines (split CRLF text)),
     with_conn st (Some (mkSocket rest (outgoing sock)))).
Proof.
  intros C I E. unfold getMessages. rewrite C, I. cbn [recv_loop].
  assert (T : truthy data = true).
  { destruct data; [discriminate E | reflexivity]. }
  rewrite T, E. reflexivity.
Qed.

Lemma getMessage_packet (st : IrcClient) (sock : Socket) (data : string)
    (rest : list recv_event) (m : Message) (more : list Message) :
  conn st = Some sock ->
  inbuffer st = [] ->
  incoming sock = RecvData data :: rest ->
  endswith data CRLF = true ->
  obind (Utf8.decode data) (fun text => parse_lines (split CRLF text))
  = Ok (m :: more) ->
  getMessage None st
  = (Ok m, mkIrcClient (name st) (show_io st) more
             (Some (mkSocket rest (outgoing sock))) (nick st)).
Proof.
  intros C B I E P. unfold getMessage, budget. cbn [getMessage_loop].
  unfold bind. rewrite B.
  rewrite (getMessages_packet true st sock data rest C I E), P.
  reflexivity.
Qed.

(** [read_while] drops the messages of the inbox whose command is [c],
    up to the first one with another command. *)
Lemma read_while_inbuffer (c : string) (m : Message) (more : list Message) :
  String.eqb (command m) c = false ->
  forall (skipped : list Message) (fuel : nat) (m0 : Message)
         (st : IrcClient),
    m0 :: inbuffer st = skipped ++ m :: more ->
    forallb (fun x => String.eqb (command x) c) skipped = true ->
    length skipped <= fuel ->
    read_while fuel c m0 st = (Ok m, with_inbuffer st more).
Proof.
  intros Hm. induction skipped as [|n skipped IH]; intros fuel m0 st E F L.
  - cbn [app] in E. injection E as -> E.
    destruct fuel; cbn [read_while]; rewrite Hm; unfold ret;
      now rewrite <- E, with_inbuffer_same.
  - cbn [app] in E. injection E as -> E.
    cbn [forallb] in F. apply andb_true_iff in F as [Fn F].
    destruct fuel as [|fuel]; [cbn in L; lia|].
    cbn [read_while]. rewrite Fn.
    destruct (skipped ++ m :: more) as [|x r] eqn:X.
    { now destruct skipped. }
    unfold bind. rewrite (getMessage_inbuffer st x r E).
    rewrite (IH fuel x (with_inbuffer st r)); [reflexivity | | exact F |].
    + cbn [inbuffer with_inbuffer]. reflexivity.
    + cbn in L. lia.
Qed.

End HandshakeFacts.

(** C3 (counterexample).  Fed the capabilities, the 005 reply with
    [METADATA=1], the PONG and then numeric 366 after the join request,
    the handshake does not return: line 153 asserts that the reply is
    not 366. *)
Lemma handshake_366_assertion_error :
  fst (Client.handshake (Scenario.client Scenario.handshake_366 "abcdefghi"))
  = Raise AssertionError.
Proof. reflexivity. Qed.

(** C3 (amended).  When the packet that answers the join request holds
    numeric 366 as its first message that is not a NOTICE, [join] fails
    with an assertion error: the handshake does not reach Ready. *)
Theorem join_refuses_366 (channel : string) (st : IrcClient) (sock : Socket)
    (data : string) (rest : list recv_event)
    (notices : list Message) (m : Message) (more : list Message) :
  conn st = Some sock ->
  inbuffer st = [] ->
  incoming sock = RecvData data :: rest ->
  endswith data CRLF = true ->
  obind (Utf8.decode data) (fun text => parse_lines (split CRLF text))
  = Ok (notices ++ m :: more) ->
  forallb (fun x => String.eqb (command x) "NOTICE") notices = true ->
  command m = "366" ->
  fst (join channel st) = Raise AssertionError.
Proof.
  intros C B I E P N M.
  destruct (StoreFacts.sendLine_connected ("JOIN " ++ channel) st sock C)
    as (st1 & Hs & _ & B1 & sock1 & C1 & I1).
  rewrite B in B1. rewrite I in I1.
  unfold join. unfold bind at 1. rewrite Hs.
  destruct (notices ++ m :: more) as [|x r] eqn:X.
  { now destruct notices. }
  unfold bind at 1.
  rewrite (HandshakeFacts.getMessage_packet st1 sock1 data rest x r
             C1 B1 I1 E P).
  unfold bind at 1.
  rewrite (HandshakeFacts.read_while_inbuffer "NOTICE" m more)
    with (skipped := notices).
  - rewrite M. reflexivity.
  - now rewrite M.
  - cbn [inbuffer]. now rewrite X.
  - exact N.
  - unfold budget. cbn [inbuffer].
    assert (L : length (x :: r) = length notices + S (length more)).
    { rewrite <- X, length_app. reflexivity. }
    cbn [length] in L. lia.
Qed.

Lemma join_refuses_366_witness :
  fst (join Client.channel
         (mkIrcClient "irc" false []
            (Some (mkSocket
                     [RecvData (Scenario.line ":srv NOTICE nick :joining"
                                ++ Scenario.line
                                     ":srv 366 nick #foo :End of /NAMES list.")]
                     []))
            "abcdefghi"))
  = Raise AssertionError.
Proof.
  apply (join_refuses_366 Client.channel
           (mkIrcClient "irc" false []
              (Some (mkSocket
                       [RecvData (Scenario.line ":srv NOTICE nick :joining"
                                  ++ Scenario.line
                                       ":srv 366 nick #foo :End of /NAMES list.")]
                       []))
              "abcdefghi")
           (mkSocket
              [RecvData (Scenario.line ":srv NOTICE nick :joining"
                         ++ Scenario.line
                              ":srv 366 nick #foo :End of /NAMES list.")]
              [])
           (Scenario.line ":srv NOTICE nick :joining"
            ++ Scenario.line ":srv 366 nick #foo :End of /NAMES list.")
           []
           [mkMessage [] (Some "srv") "NOTICE" ["nick"; "joining"]]
           (mkMessage [] (Some "srv") "366"
                      ["nick"; "#foo"; "End of /NAMES list."])
           []);
    reflexivity.
Defined.

(** With the join request echoed before the names list, the same
    handshake returns and the client is ready. *)
Example handshake_joined_ready :
  fst (Client.handshake (Scenario.client Scenario.handshake_joined "abcdefghi"))
  = Ok tt.
Proof. reflexivity. Qed.

(** Without [METADATA] in the 005 reply the handshake fails. *)
Example handshake_without_metadata :
  fst (Client.handshake
         (Scenario.client
            [RecvData (Scenario.line ":srv CAP * LS :metadata-2");
             RecvData (Scenario.line ":srv 005 nick CHANTYPES=# :are supported")]
            "abcdefghi"))
  = Raise (Exception "Server does not support METADATA.").
Proof. reflexivity. Qed.

(** ** The fuel is enough

    The loops of the client are written with fuel.  Every turn of a
    loop takes a message, and taking a message lowers [budget]: the
    fuel that [getMessage], [authenticate] and [join] give to their
    loops never runs out, and [OutOfFuel] is no outcome of the client. *)

Module FuelFacts.
Import PyStrFacts.

Lemma settled_obind {A B} (x : outcome A) (f : A -> outcome B) :
  settled x -> (forall a, settled (f a)) -> settled (obind x f).
Proof. destruct x; cbn; auto. Qed.

Lemma settled_fueled {A} (x : outcome A) : settled x -> fueled x.
Proof. unfold fueled. now destruct x. Qed.

Lemma strip_tags_settled (s : string) : settled (strip_tags s).
Proof.
  unfold strip_tags. destruct (startswith s "@"); [|exact I].
  now destruct (split1 " " s) as [|? [|? [|? ?]]].
Qed.

Lemma assemble_settled (tokens : list string) : settled (assemble tokens).
Proof.
  unfold assemble. destruct tokens as [|t0 rest]; [exact I|].
  destruct (startswith t0 ":"); cbv beta iota zeta; [|exact I].
  now destruct rest.
Qed.

Lemma tokenize_settled (s : string) : settled (tokenize s).
Proof.
  unfold tokenize. destruct (contains " :" s); [|exact I].
  now destruct (split " :" s) as [|? [|? [|? ?]]].
Qed.

Lemma parse_message_settled (s : string) : settled (parse_message s).
Proof.
  unfold parse_message. destruct (negb (endswith s CRLF)); [exact I|].
  cbv zeta. apply settled_obind; [apply strip_tags_settled|].
  intros r. apply settled_obind; [apply tokenize_settled|].
  apply assemble_settled.
Qed.

Lemma parse_lines_settled (lines : list string) : settled (parse_lines lines).
Proof.
  induction lines as [|l lines IH]; [exact I|].
  cbn [parse_lines]. destruct (truthy l); [|exact IH].
  apply settled_obind; [apply parse_message_settled|].
  intros m. now apply settled_obind.
Qed.

(** A line that is parsed holds a byte. *)
Lemma parse_lines_length (lines : list string) (msgs : list Message) :
  parse_lines lines = Ok msgs -> length msgs <= length (nonempty lines).
Proof.
  revert msgs; induction lines as [|l lines IH]; intros msgs H.
  - injection H as <-. cbn. lia.
  - cbn [parse_lines] in H. cbn [nonempty filter].
    destruct (truthy l).
    + destruct (parse_message (l ++ CRLF)) as [m| | |]; try discriminate.
      cbn [obind] in H.
      destruct (parse_lines lines) as [ms| | |]; try discriminate.
      injection H as <-. specialize (IH ms eq_refl).
      cbn [length]. unfold nonempty in IH. lia.
    + apply (IH msgs H).
Qed.

Lemma nonempty_split_length (fuel : nat) (sep s : string) :
  length (nonempty (split_fuel fuel sep s)) <= String.length s.
Proof.
  revert s; induction fuel as [|fuel IH]; intros s.
  - cbn. destruct s; cbn; lia.
  - cbn [split_fuel]. destruct (partition sep s) as [[a b]|] eqn:P.
    + pose proof (partition_shorter _ _ _ _ P) as L.
      specialize (IH b). cbn [nonempty filter]. unfold nonempty in IH.
      destruct a as [|c a]; cbn [truthy length String.length] in *; lia.
    + cbn. destruct s; cbn; lia.
Qed.

Lemma script_size_cons (e : recv_event) (script : list recv_event) :
  script_size (e :: script) = event_size e + script_size script.
Proof. reflexivity. Qed.

Lemma recv_loop_size (a : bool) (script : list recv_event) :
  forall data r rest,
    recv_loop a data script = (r, rest) ->
    fueled r
    /\ match r with
       | Ok (Break d) =>
           String.length d + script_size rest
           < String.length data + script_size script
       | Ok ReturnEmpty => script_size rest < script_size script
       | _ => script_size rest <= script_size script
       end.
Proof.
  induction script as [|e script IH]; intros data r rest H.
  - injection H as <- <-. split; [discriminate | cbn; lia].
  - rewrite script_size_cons.
    destruct e as [new_data|]; cbn [recv_loop event_size] in *.
    + destruct (truthy new_data).
      * cbn [negb] in H. destruct (endswith new_data CRLF).
        -- injection H as <- <-. split; [discriminate|].
           rewrite length_append. lia.
        -- destruct (IH _ _ _ H) as [F L]. split; [exact F|].
           rewrite length_append in L.
           destruct r as [[|d]| | |]; lia.
      * cbn [negb] in H. injection H as <- <-.
        split; [discriminate | lia].
    + destruct (negb a && String.eqb data ""); injection H as <- <-;
        (split; [discriminate | lia]).
Qed.

Lemma pending_with_inbuffer (st : IrcClient) (b : list Message) :
  pending (with_inbuffer st b) = pending st.
Proof. reflexivity. Qed.

Lemma budget_pending (st : IrcClient) :
  budget st = S (length (inbuffer st) + pending st).
Proof. reflexivity. Qed.

Lemma getMessages_fueled (a : bool) (st : IrcClient) :
  fueled (fst (getMessages a st)).
Proof.
  unfold getMessages. destruct (conn st) as [sock|]; [|discriminate].
  destruct (recv_loop a "" (incoming sock)) as [r rest] eqn:R.
  destruct (recv_loop_size _ _ _ _ _ R) as [F _].
  destruct r as [[|data]|e| |]; cbn [fst]; try discriminate.
  - apply settled_fueled. unfold Utf8.decode.
    destruct (Utf8.run Utf8.Start data); [|exact I].
    apply parse_lines_settled.
  - now elim F.
Qed.

(** The messages [getMessages] returns are paid by what it reads. *)
Lemma getMessages_budget (a : bool) (st st' : IrcClient)
    (msgs : list Message) :
  getMessages a st = (Ok msgs, st') ->
  inbuffer st' = inbuffer st /\ length msgs + pending st' < pending st.
Proof.
  unfold getMessages, pending. destruct (conn st) as [sock|]; [|discriminate].
  destruct (recv_loop a "" (incoming sock)) as [r rest] eqn:R.
  destruct (recv_loop_size _ _ _ _ _ R) as [_ Hs].
  destruct r as [[|data]|e| |]; try discriminate.
  - injection 1 as <- <-. cbn [conn with_conn inbuffer incoming length].
    split; [reflexivity | lia].
  - intros H. injection H as H <-. cbn [conn with_conn inbuffer incoming].
    split; [reflexivity|].
    unfold Utf8.decode in H. destruct (Utf8.run Utf8.Start data);
      [|discriminate].
    cbn [obind] in H. apply parse_lines_length in H.
    pose proof (nonempty_split_length (String.length data) CRLF data) as L.
    unfold split in H. cbn [String.length] in Hs. lia.
Qed.

Lemma getMessage_loop_budget (fuel : nat)
    (filter_pred : option (Message -> bool)) :
  forall st st' m,
    getMessage_loop fuel filter_pred st = (Ok m, st') ->
    budget st' < budget st.
Proof.
  induction fuel as [|fuel IH]; intros st st' m H; [discriminate|].
  cbn [getMessage_loop] in H. unfold bind at 1 in H.
  destruct (inbuffer st) as [|m0 rest0] eqn:B.
  - unfold bind in H.
    destruct (getMessages true st) as [[msgs|e| |] st1] eqn:G;
      try discriminate.
    destruct (getMessages_budget _ _ _ _ G) as [_ L].
    cbn [inbuffer with_inbuffer] in H.
    destruct msgs as [|m1 rest]; [discriminate|].
    assert (D : budget (with_inbuffer (with_inbuffer st1 (m1 :: rest)) rest)
                < budget st).
    { rewrite !budget_pending, B. cbn [inbuffer with_inbuffer length] in *.
      rewrite !pending_with_inbuffer. lia. }
    destruct (accepts filter_pred m1).
    + now injection H as _ <-.
    + apply IH in H. lia.
  - rewrite B in H.
    assert (D : budget (with_inbuffer st rest0) < budget st).
    { rewrite !budget_pending, B. cbn [inbuffer with_inbuffer length].
      rewrite pending_with_inbuffer. lia. }
    destruct (accepts filter_pred m0).
    + now injection H as _ <-.
    + apply IH in H. lia.
Qed.

Lemma getMessage_loop_fueled (fuel : nat)
    (filter_pred : option (Message -> bool)) :
  forall st, budget st <= fuel ->
             fueled (fst (getMessage_loop fuel filter_pred st)).
Proof.
  induction fuel as [|fuel IH]; intros st L.
  - rewrite budget_pending in L. lia.
  - cbn [getMessage_loop]. unfold bind at 1.
    destruct (inbuffer st) as [|m0 rest0] eqn:B.
    + unfold bind. pose proof (getMessages_fueled true st) as F.
      destruct (getMessages true st) as [[msgs|e| |] st1] eqn:G;
        cbn [fst] in *; try discriminate; [|now elim F].
      destruct (getMessages_budget _ _ _ _ G) as [_ L1].
      cbn [inbuffer with_inbuffer].
      destruct msgs as [|m1 rest]; [discriminate|].
      destruct (accepts filter_pred m1); [discriminate|].
      apply IH. rewrite !budget_pending, B in *.
      cbn [inbuffer with_inbuffer length] in *.
      rewrite !pending_with_inbuffer. lia.
    + rewrite B. destruct (accepts filter_pred m0); [discriminate|].
      apply IH. rewrite !budget_pending, B in *.
      cbn [inbuffer with_inbuffer length] in *.
      rewrite pending_with_inbuffer. lia.
Qed.

Lemma getMessage_fueled (filter_pred : option (Message -> bool))
    (st : IrcClient) :
  fueled (fst (getMessage filter_pred st)).
Proof. apply getMessage_loop_fueled. lia. Qed.

Lemma getMessage_budget (filter_pred : option (Message -> bool))
    (st st' : IrcClient) (m : Message) :
  getMessage filter_pred st = (Ok m, st') -> budget st' < budget st.
Proof. apply getMessage_loop_budget. Qed.

(** Sequencing keeps the fuel. *)
Lemma bind_fueled {A B} (c : M A) (k : A -> M B) (st : IrcClient) :
  fueled (fst (c st)) ->
  (forall a st', fueled (fst (k a st'))) ->
  fueled (fst (bind c k st)).
Proof.
  intros Hc Hk. unfold bind.
  destruct (c st) as [[a|e| |] st1]; cbn [fst] in *;
    [apply Hk | discriminate | discriminate | now elim Hc].
Qed.

Lemma lift_fueled {A} (x : outcome A) (st : IrcClient) :
  settled x -> fueled (fst (lift x st)).
Proof. apply settled_fueled. Qed.

Lemma index_settled {A} (l : list A) (i : nat) : settled (index l i).
Proof. unfold index. now destruct (nth_error l i). Qed.

Lemma sendLine_fueled (line : string) (st : IrcClient) :
  fueled (fst (sendLine line st)).
Proof.
  unfold sendLine, bind, sendall, ret.
  destruct (conn st); [|discriminate].
  cbn. destruct (endswith line CRLF); discriminate.
Qed.

Lemma cap_loop_fueled (fuel : nat) :
  forall capabilities st,
    budget st <= fuel -> fueled (fst (cap_loop fuel capabilities st)).
Proof.
  induction fuel as [|fuel IH]; intros caps st L.
  - rewrite budget_pending in L. lia.
  - cbn [cap_loop]. unfold bind at 1.
    pose proof (getMessage_fueled None st) as F.
    destruct (getMessage None st) as [[m|e| |] st1] eqn:G; cbn [fst] in *;
      try discriminate; [|now elim F].
    apply getMessage_budget in G.
    assert (L1 : budget st1 <= fuel) by lia.
    destruct (negb (String.eqb (command m) "CAP")); [now apply IH|].
    unfold bind at 1, lift at 1, index at 1.
    destruct (nth_error (params m) 1) as [p1|]; [|discriminate].
    destruct (negb (String.eqb p1 "LS")); [now apply IH|].
    unfold bind at 1, lift at 1, index at 1.
    destruct (nth_error (params m) 2) as [p2|]; [|discriminate].
    destruct (String.eqb p2 "*"); [|discriminate].
    unfold bind at 1, lift at 1, index at 1.
    destruct (nth_error (params m) 3) as [p3|]; [|discriminate].
    now apply IH.
Qed.

Lemma read_until_fueled (c : string) (fuel : nat) :
  forall m st, budget st <= fuel -> fueled (fst (read_until fuel c m st)).
Proof.
  induction fuel as [|fuel IH]; intros m st L.
  - rewrite budget_pending in L. lia.
  - cbn [read_until]. destruct (String.eqb (command m) c); [discriminate|].
    unfold bind.
    pose proof (getMessage_fueled None st) as F.
    destruct (getMessage None st) as [[m'|e| |] st1] eqn:G; cbn [fst] in *;
      try discriminate; [|now elim F].
    apply getMessage_budget in G. apply IH. lia.
Qed.

Lemma read_while_fueled (c : string) (fuel : nat) :
  forall m st, budget st <= fuel -> fueled (fst (read_while fuel c m st)).
Proof.
  induction fuel as [|fuel IH]; intros m st L.
  - rewrite budget_pending in L. lia.
  - cbn [read_while]. destruct (String.eqb (command m) c); [|discriminate].
    unfold bind.
    pose proof (getMessage_fueled None st) as F.
    destruct (getMessage None st) as [[m'|e| |] st1] eqn:G; cbn [fst] in *;
      try discriminate; [|now elim F].
    apply getMessage_budget in G. apply IH. lia.
Qed.

Lemma authenticate_fueled (st : IrcClient) : fueled (fst (authenticate st)).
Proof.
  unfold authenticate.
  apply bind_fueled; [apply sendLine_fueled | intros _ st1].
  apply bind_fueled; [apply sendLine_fueled | intros _ st2].
  apply bind_fueled; [apply sendLine_fueled | intros _ st3].
  apply bind_fueled; [now apply cap_loop_fueled | intros r st4].
  apply bind_fueled; [apply sendLine_fueled | intros _ st5].
  apply bind_fueled; [now apply read_until_fueled | intros m st6].
  destruct (negb (existsb (String.eqb "METADATA") (isupport_names m)));
    [discriminate|].
  apply bind_fueled; [apply sendLine_fueled | intros _ st7].
  apply bind_fueled; [now apply read_until_fueled | intros m' st8].
  discriminate.
Qed.

Lemma join_fueled (channel : string) (st : IrcClient) :
  fueled (fst (join channel st)).
Proof.
  unfold join.
  apply bind_fueled; [apply sendLine_fueled | intros _ st1].
  apply bind_fueled; [apply getMessage_fueled | intros m st2].
  apply bind_fueled; [now apply read_while_fueled | intros m' st3].
  destruct (String.eqb (command m') "366"); [discriminate|].
  apply bind_fueled; [apply getMessages_fueled | intros _ st4].
  discriminate.
Qed.

Lemma assert_command_fueled (m : Message) (c : string) (st : IrcClient) :
  fueled (fst (Client.assert_command m c st)).
Proof.
  unfold Client.assert_command.
  destruct (String.eqb (command m) c); discriminate.
Qed.

Lemma send_deletes_fueled (keys : list string) (st : IrcClient) :
  fueled (fst (Client.send_deletes keys st)).
Proof.
  revert st; induction keys as [|key keys IH]; intros st; [discriminate|].
  cbn [Client.send_deletes].
  apply bind_fueled; [apply sendLine_fueled | intros _ st1; apply IH].
Qed.

Lemma read_acks_fueled (keys : list string) (st : IrcClient) :
  fueled (fst (Client.read_acks keys st)).
Proof.
  revert st; induction keys as [|key keys IH]; intros st; [discriminate|].
  cbn [Client.read_acks].
  apply bind_fueled; [apply getMessage_fueled | intros m st1].
  apply bind_fueled; [apply assert_command_fueled | intros _ st2].
  apply bind_fueled; [apply getMessage_fueled | intros m' st3].
  apply bind_fueled; [apply assert_command_fueled | intros _ st4; apply IH].
Qed.

End FuelFacts.

(** The handshake and the operations of the store never run out of
    fuel: they return, raise, or wait for a peer that has no more to
    say. *)
Theorem client_fueled (st : IrcClient) :
  fueled (fst (Client.handshake st))
  /\ (forall key value, fueled (fst (Client.set key value st)))
  /\ (forall keys, fueled (fst (Client.delete_multi keys st)))
  /\ (forall key, fueled (fst (Client.get key st))).
Proof.
  split; [|split; [|split]].
  - unfold Client.handshake.
    apply FuelFacts.bind_fueled; [apply FuelFacts.authenticate_fueled|].
    intros _ st1. apply FuelFacts.join_fueled.
  - intros key value. unfold Client.set.
    destruct (negb (isvalidkey key)); [discriminate|].
    apply FuelFacts.bind_fueled; [apply FuelFacts.sendLine_fueled|].
    intros _ st1.
    apply FuelFacts.bind_fueled; [apply FuelFacts.getMessage_fueled|].
    intros m st2.
    apply FuelFacts.bind_fueled; [apply FuelFacts.assert_command_fueled|].
    intros _ st3.
    apply FuelFacts.bind_fueled; [apply FuelFacts.getMessage_fueled|].
    intros m' st4. apply FuelFacts.assert_command_fueled.
  - intros keys. unfold Client.delete_multi.
    apply FuelFacts.bind_fueled; [apply FuelFacts.send_deletes_fueled|].
    intros _ st1. apply FuelFacts.read_acks_fueled.
  - intros key. unfold Client.get.
    destruct (negb (isvalidkey key)); [discriminate|].
    apply FuelFacts.bind_fueled; [apply FuelFacts.sendLine_fueled|].
    intros _ st1.
    apply FuelFacts.bind_fueled; [apply FuelFacts.getMessage_fueled|].
    intros m st2.
    destruct (String.eqb (command m) "766"); [discriminate|].
    apply FuelFacts.bind_fueled; [apply FuelFacts.assert_command_fueled|].
    intros _ st3.
    apply FuelFacts.bind_fueled;
      [apply FuelFacts.lift_fueled, FuelFacts.index_settled|].
    intros k st4.
    destruct (negb (String.eqb k key)); [discriminate|].
    apply FuelFacts.bind_fueled;
      [apply FuelFacts.lift_fueled, FuelFacts.index_settled|].
    intros p3 st5. apply FuelFacts.lift_fueled.
    unfold Client.decode.
    destruct (split1 ":" p3) as [|t [|v [|? ?]]]; try exact I.
    destruct (String.eqb t "bool"); [exact I|].
    destruct (String.eqb t "int"); [|exact I].
    unfold PyIntParse.of_string.
    destruct (PyIntParse.rstrip (PyIntParse.lstrip v)) as [|c b];
      cbv beta iota zeta.
    + now destruct (PyIntParse.digits 0 false "").
    + now destruct c as [[] [] [] [] [] [] [] []];
        match goal with
        | |- context [PyIntParse.digits ?a ?b ?s] =>
            destruct (PyIntParse.digits a b s)
        end.
Qed.

(** ** Lines that are well formed *)

Module SplitFacts.
Import PyStrFacts CommandlessFacts.

Lemma partition_empty (sep : string) : partition sep "" = None.
Proof. reflexivity. Qed.

(** More fuel than the length of the text changes nothing. *)
Lemma split_fuel_enough (sep : string) :
  sep <> "" ->
  forall fuel fuel' s,
    String.length s <= fuel -> String.length s <= fuel' ->
    split_fuel fuel sep s = split_fuel fuel' sep s.
Proof.
  intros Hsep.
  assert (Hz : forall s, String.length s <= 0 -> partition sep s = None).
  { intros [|c s] L; [reflexivity | cbn in L; lia]. }
  induction fuel as [|fuel IH]; intros fuel' s L L'.
  - destruct fuel'; cbn [split_fuel]; [reflexivity | now rewrite (Hz s L)].
  - destruct fuel'; cbn [split_fuel].
    + now rewrite (Hz s L').
    + destruct (partition sep s) as [[a b]|] eqn:P; [|reflexivity].
      pose proof (partition_shorter _ _ _ _ P) as E.
      assert (0 < String.length sep) by (destruct sep; [congruence|cbn; lia]).
      f_equal. apply IH; lia.
Qed.

Lemma split_step (sep s a b : string) :
  sep <> "" -> partition sep s = Some (a, b) ->
  split sep s = a :: split sep b.
Proof.
  intros Hsep P. rewrite (split_cons _ _ _ _ P). f_equal.
  pose proof (partition_shorter _ _ _ _ P) as E.
  assert (0 < String.length sep) by (destruct sep; [congruence|cbn; lia]).
  unfold split. apply split_fuel_enough; [exact Hsep | lia | lia].
Qed.

Lemma word_parts (w : string) :
  word w = true -> truthy w = true /\ no_space w = true.
Proof. unfold word. intros H. now apply andb_true_iff in H. Qed.

Lemma plain_parts (w : string) :
  plain w = true -> word w = true /\ startswith w ":" = false.
Proof.
  unfold plain. intros H. apply andb_true_iff in H as [W C].
  now apply negb_true_iff in C.
Qed.

(** Words joined by single spaces are split back into the words. *)
Lemma split_words (ws : list string) :
  forallb word ws = true ->
  nonempty (split " " (String.concat " " ws)) = ws.
Proof.
  induction ws as [|w ws IH]; intros H; [reflexivity|].
  cbn [forallb] in H. apply andb_true_iff in H as [W H].
  destruct (word_parts _ W) as [T N].
  destruct ws as [|w' ws].
  - cbn [String.concat]. rewrite (split_none _ _ (partition_word _ _ N)).
    cbn [nonempty filter]. now rewrite T.
  - change (String.concat " " (w :: w' :: ws))
      with (w ++ " " ++ String.concat " " (w' :: ws))%string.
    rewrite (split_step " " _ _ _ ltac:(discriminate)
               (partition_word_space _ _ N)).
    cbn [nonempty filter]. rewrite T. f_equal. apply (IH H).
Qed.

Lemma startswith_colon_append (w r : string) :
  truthy w = true -> startswith (w ++ r) ":" = startswith w ":".
Proof. destruct w as [|c w]; [discriminate|]. intros _. reflexivity. Qed.

Lemma concat_starts (w : string) (ws : list string) :
  truthy w = true ->
  startswith (String.concat " " (w :: ws)) ":" = startswith w ":".
Proof.
  intros T. destruct ws as [|w' ws]; [reflexivity|].
  change (String.concat " " (w :: w' :: ws))
    with (w ++ " " ++ String.concat " " (w' :: ws))%string.
  now apply startswith_colon_append.
Qed.

Lemma partition_marker_space (x : string) :
  partition " :" (String " " x)
  = if startswith x ":" then Some ("", drop 1 x)
    else match partition " :" x with
         | Some (a, b) => Some (String " " a, b)
         | None => None
         end.
Proof. reflexivity. Qed.

(** The first [" :"] after words of which only the first may start
    with a colon is the one that follows them. *)
Lemma partition_marker_words (w : string) (ws : list string) (t : string) :
  word w = true -> forallb plain ws = true ->
  partition " :" (String.concat " " (w :: ws) ++ " :" ++ t)
  = Some (String.concat " " (w :: ws), t).
Proof.
  revert w; induction ws as [|w' ws IH]; intros w W H.
  - destruct (word_parts _ W) as [_ N]. cbn [String.concat].
    rewrite (partition_past_word _ _ _ N).
    cbn. now rewrite append_nil_r.
  - cbn [forallb] in H. apply andb_true_iff in H as [P H].
    destruct (plain_parts _ P) as [W' C], (word_parts _ W) as [_ N].
    destruct (word_parts _ W') as [T' _].
    change (String.concat " " (w :: w' :: ws) ++ " :" ++ t)%string
      with ((w ++ " " ++ String.concat " " (w' :: ws)) ++ " :" ++ t)%string.
    rewrite append_assoc.
    change ((" " ++ String.concat " " (w' :: ws)) ++ " :" ++ t)%string
      with (String " " (String.concat " " (w' :: ws) ++ " :" ++ t)).
    rewrite (partition_past_word _ _ _ N), partition_marker_space.
    assert (S0 : startswith (String.concat " " (w' :: ws) ++ " :" ++ t) ":"
                 = false).
    { rewrite startswith_colon_append.
      - now rewrite (concat_starts _ _ T').
      - destruct ws; cbn [String.concat]; [exact T'|].
        now destruct w'. }
    rewrite S0, (IH w' W' H). reflexivity.
Qed.

Lemma partition_marker_none (w : string) (ws : list string) :
  word w = true -> forallb plain ws = true ->
  partition " :" (String.concat " " (w :: ws)) = None.
Proof.
  revert w; induction ws as [|w' ws IH]; intros w W H.
  - destruct (word_parts _ W) as [_ N]. now apply partition_word.
  - cbn [forallb] in H. apply andb_true_iff in H as [P H].
    destruct (plain_parts _ P) as [W' C], (word_parts _ W) as [_ N].
    destruct (word_parts _ W') as [T' _].
    change (String.concat " " (w :: w' :: ws))
      with (w ++ String " " (String.concat " " (w' :: ws)))%string.
    rewrite (partition_past_word _ _ _ N), partition_marker_space.
    now rewrite (concat_starts _ _ T'), C, (IH w' W' H).
Qed.

(** The tokens of words and a trailing parameter. *)
Lemma tokenize_words (w : string) (ws : list string)
    (trailing : option string) :
  word w = true -> forallb plain ws = true ->
  match trailing with
  | Some t => contains " :" t = false
  | None => True
  end ->
  tokenize (String.concat " " (w :: ws)
            ++ match trailing with
               | Some t => " :" ++ t
               | None => ""
               end)
  = Ok (w :: ws ++ trailing_params trailing).
Proof.
  intros W H T.
  assert (A : forallb word (w :: ws) = true).
  { cbn [forallb]. rewrite W. cbn [andb].
    clear - H. induction ws as [|x ws IH]; [reflexivity|].
    cbn [forallb] in *. apply andb_true_iff in H as [P H].
    destruct (plain_parts _ P) as [-> _]. now apply IH. }
  destruct trailing as [t|]; cbn [trailing_params].
  - rewrite (ParserFacts.tokenize_trailing_once _ _ _
               (partition_marker_words w ws t W H) T).
    now rewrite (split_words _ A).
  - rewrite append_nil_r, app_nil_r.
    rewrite ParserFacts.tokenize_no_trailing.
    + now rewrite (split_words _ A).
    + unfold contains. now rewrite (partition_marker_none w ws W H).
Qed.

End SplitFacts.

Module RenderFacts.
Import PyStrFacts SplitFacts.

Lemma first_word (pfx : option string) (cmd : string) (ps : list string) :
  match pfx with
  | Some p => [(":" ++ p)%string]
  | None => []
  end ++ cmd :: ps
  = match pfx with
    | Some p => (":" ++ p)%string :: cmd :: ps
    | None => cmd :: ps
    end.
Proof. now destruct pfx. Qed.

Lemma tokenize_render (pfx : option string) (cmd : string)
    (ps : list string) (trailing : option string) :
  match pfx with
  | Some p => no_space p = true
  | None => True
  end ->
  plain cmd = true -> forallb plain ps = true ->
  match trailing with
  | Some t => contains " :" t = false
  | None => True
  end ->
  tokenize (render pfx cmd ps trailing)
  = Ok (match pfx with
        | Some p => [(":" ++ p)%string]
        | None => []
        end ++ cmd :: ps ++ trailing_params trailing).
Proof.
  intros Hp Hc Hps Ht. unfold render. rewrite first_word.
  destruct (plain_parts _ Hc) as [Wc _].
  destruct pfx as [p|].
  - assert (W : word (":" ++ p) = true) by exact Hp.
    assert (A : forallb plain (cmd :: ps) = true).
    { cbn [forallb]. now rewrite Hc. }
    now rewrite (tokenize_words (":" ++ p) (cmd :: ps) trailing W A Ht).
  - now rewrite (tokenize_words cmd ps trailing Wc Hps Ht).
Qed.

Lemma assemble_render (pfx : option string) (cmd : string)
    (params : list string) :
  startswith cmd ":" = false ->
  assemble (match pfx with
            | Some p => [(":" ++ p)%string]
            | None => []
            end ++ cmd :: params)
  = Ok (mkMessage [] pfx cmd params).
Proof.
  intros C. destruct pfx as [p|]; cbn [app]; unfold assemble.
  - reflexivity.
  - now rewrite C.
Qed.

Lemma render_untagged (pfx : option string) (cmd : string)
    (ps : list string) (trailing : option string) :
  truthy cmd = true ->
  match pfx with
  | Some p => True
  | None => startswith cmd "@" = false
  end ->
  startswith (render pfx cmd ps trailing) "@" = false.
Proof.
  intros T H. unfold render. rewrite first_word.
  destruct pfx as [p|].
  - now destruct ps.
  - destruct cmd as [|c cmd]; [discriminate|].
    destruct ps; exact H.
Qed.

End RenderFacts.

(** X1.  The line of a message is parsed back into the message: the
    prefix, the command, the parameters in order and the trailing
    parameter last, with its spaces.  The words are not empty and hold
    no space, the command and the parameters do not start with a colon,
    a line without a prefix does not start with an at sign, and the
    trailing parameter holds no [" :"]. *)
Theorem parse_message_render (pfx : option string) (cmd : string)
    (ps : list string) (trailing : option string) :
  match pfx with
  | Some p => no_space p = true
  | None => startswith cmd "@" = false
  end ->
  plain cmd = true -> forallb plain ps = true ->
  match trailing with
  | Some t => contains " :" t = false
  | None => True
  end ->
  parse_message (render pfx cmd ps trailing ++ CRLF)
  = Ok (mkMessage [] pfx cmd (ps ++ trailing_params trailing)).
Proof.
  intros Hp Hc Hps Ht.
  destruct (SplitFacts.plain_parts _ Hc) as [Wc Cc].
  destruct (SplitFacts.word_parts _ Wc) as [Tc _].
  rewrite ParserFacts.parse_message_line. unfold strip_tags.
  rewrite RenderFacts.render_untagged;
    [| exact Tc | now destruct pfx].
  cbn [obind]. rewrite RenderFacts.tokenize_render; try assumption.
  - cbn [obind]. now apply RenderFacts.assemble_render.
  - now destruct pfx.
Qed.

Lemma parse_message_render_witness :
  parse_message (":nick!user@host PRIVMSG #chan :hello there, world" ++ CRLF)
  = Ok (mkMessage [] (Some "nick!user@host") "PRIVMSG"
                  ["#chan"; "hello there, world"]).
Proof.
  apply (parse_message_render (Some "nick!user@host") "PRIVMSG" ["#chan"]
           (Some "hello there, world"));
    reflexivity.
Defined.



(** ** Packets and lines *)

Module PacketFacts.
Import PyStrFacts SplitFacts.

Lemma endswith_truthy (s p : string) :
  truthy p = true -> endswith s p = true -> truthy s = true.
Proof.
  intros Tp E. destruct s; [|reflexivity].
  destruct p; [discriminate Tp | discriminate E].
Qed.

Lemma recv_loop_packets (a : bool) (chunks : list string) (last : string)
    (rest : list recv_event) :
  forallb open_chunk chunks = true ->
  endswith last CRLF = true ->
  forall data,
    recv_loop a data (packets chunks ++ RecvData last :: rest)
    = (Ok (Break (data ++ gather chunks ++ last)), rest).
Proof.
  intros H E. induction chunks as [|c chunks IH]; intros data.
  - cbn [packets map app recv_loop gather fold_right append].
    now rewrite (endswith_truthy last CRLF eq_refl E), E.
  - cbn [forallb] in H. apply andb_true_iff in H as [Hc H].
    unfold open_chunk in Hc. apply andb_true_iff in Hc as [Ht He].
    apply negb_true_iff in He.
    cbn [packets map app recv_loop gather fold_right].
    rewrite Ht, He. cbn [negb].
    fold (packets chunks). rewrite (IH H). fold (gather chunks).
    now rewrite !append_assoc.
Qed.

(** The first CR LF after a line that holds none is the one that ends
    it. *)
Lemma partition_line (l r : string) :
  contains CRLF l = false ->
  partition CRLF (l ++ CRLF ++ r) = Some (l, r).
Proof.
  induction l as [|c l IH]; intros H; [reflexivity|].
  apply contains_false in H. cbn [partition] in H.
  destruct (startswith (String c l) CRLF) eqn:S0; [discriminate|].
  destruct (partition CRLF l) as [[x y]|] eqn:P; [discriminate|].
  change (String c l ++ CRLF ++ r)%string with (String c (l ++ CRLF ++ r)).
  cbn [partition].
  assert (S1 : startswith (String c (l ++ CRLF ++ r)) CRLF = false).
  { destruct l as [|d l]; [|exact S0].
    cbn. now rewrite andb_false_r. }
  rewrite S1, IH; [reflexivity|].
  unfold contains. now rewrite P.
Qed.

Lemma split_frame (l : string) (ls : list string) :
  contains CRLF l = false ->
  split CRLF (frame (l :: ls)) = l :: split CRLF (frame ls).
Proof.
  intros H. cbn [frame fold_right]. fold (frame ls).
  apply split_step; [discriminate | now apply partition_line].
Qed.

(** The lines of a frame are parsed one by one, in order. *)
Lemma parse_lines_frame (ls : list string) (ms : list Message) :
  Forall2 (fun l m => truthy l = true /\ contains CRLF l = false
                      /\ parse_message (l ++ CRLF) = Ok m) ls ms ->
  parse_lines (split CRLF (frame ls)) = Ok ms.
Proof.
  induction 1 as [|l m ls ms (T & C & P) _ IH]; [reflexivity|].
  rewrite (split_frame _ _ C). cbn [parse_lines].
  now rewrite T, P, IH.
Qed.

End PacketFacts.

(** X3.  How the peer cuts its bytes into packets does not matter: when
    no packet before the last is empty or ends with CR LF and the last
    one ends with CR LF, [getMessages] does what it does when the same
    bytes come in one packet. *)
Theorem getMessages_reassembles (assert_get_one : bool) (st : IrcClient)
    (sock : Socket) (chunks : list string) (last : string)
    (rest : list recv_event) :
  conn st = Some sock ->
  incoming sock = packets chunks ++ RecvData last :: rest ->
  forallb open_chunk chunks = true ->
  endswith last CRLF = true ->
  getMessages assert_get_one st
  = (fst (getMessages assert_get_one
            (with_conn st
               (Some (mkSocket (RecvData (gather chunks ++ last) :: rest)
                               (outgoing sock))))),
     with_conn st (Some (mkSocket rest (outgoing sock)))).
Proof.
  intros C I O E. unfold getMessages at 1. rewrite C, I.
  rewrite (PacketFacts.recv_loop_packets _ _ _ _ O E).
  cbn [append].
  assert (E' : endswith (gather chunks ++ last) CRLF = true).
  { now apply ParserFacts.endswith_suffix. }
  rewrite (HandshakeFacts.getMessages_packet assert_get_one
             (with_conn st
                (Some (mkSocket (RecvData (gather chunks ++ last) :: rest)
                                (outgoing sock))))
             (mkSocket (RecvData (gather chunks ++ last) :: rest)
                       (outgoing sock))
             (gather chunks ++ last) rest eq_refl eq_refl E').
  reflexivity.
Qed.

Lemma getMessages_reassembles_witness :
  getMessages true
    (Scenario.client [RecvData ":srv 761 #f"; RecvData "oo k * :st";
                      RecvData (Scenario.line "r:bar")] "abcdefghi")
  = (Ok [mkMessage [] (Some "srv") "761" ["#foo"; "k"; "*"; "str:bar"]],
     Scenario.client [] "abcdefghi").
Proof.
  apply (getMessages_reassembles true
           (Scenario.client [RecvData ":srv 761 #f"; RecvData "oo k * :st";
                             RecvData (Scenario.line "r:bar")] "abcdefghi")
           (mkSocket [RecvData ":srv 761 #f"; RecvData "oo k * :st";
                      RecvData (Scenario.line "r:bar")] [])
           [":srv 761 #f"; "oo k * :st"] (Scenario.line "r:bar") []);
    reflexivity.
Defined.

(** X4.  A packet that holds several lines, each ended by CR LF, gives
    the messages of all the lines in the order of the lines.  The lines
    are not empty, hold no CR LF and are parsed; the bytes are
    well-formed UTF-8. *)
Theorem getMessages_burst (assert_get_one : bool) (st : IrcClient)
    (sock : Socket) (ls : list string) (ms : list Message)
    (rest : list recv_event) :
  conn st = Some sock ->
  incoming sock = RecvData (frame ls) :: rest ->
  ls <> [] ->
  Forall2 (fun l m => truthy l = true /\ contains CRLF l = false
                      /\ parse_message (l ++ CRLF) = Ok m) ls ms ->
  Utf8.decode (frame ls) = Ok (frame ls) ->
  getMessages assert_get_one st
  = (Ok ms, with_conn st (Some (mkSocket rest (outgoing sock)))).
Proof.
  intros C I N F U.
  assert (E : endswith (frame ls) CRLF = true).
  { clear - N. induction ls as [|l ls IH]; [congruence|].
    cbn [frame fold_right]. fold (frame ls).
    destruct ls as [|l' ls].
    - cbn [frame fold_right]. apply PyStrFacts.endswith_append.
    - rewrite <- PyStrFacts.append_assoc.
      apply ParserFacts.endswith_suffix. apply IH. discriminate. }
  rewrite (HandshakeFacts.getMessages_packet _ _ _ _ _ C I E), U.
  cbn [obind]. now rewrite (PacketFacts.parse_lines_frame _ _ F).
Qed.

Lemma getMessages_burst_witness :
  getMessages false
    (Scenario.client
       [RecvData (frame [":srv 761 #foo k * :int:7";
                         ":srv 762 #foo :end of metadata"])]
       "abcdefghi")
  = (Ok [mkMessage [] (Some "srv") "761" ["#foo"; "k"; "*"; "int:7"];
         mkMessage [] (Some "srv") "762" ["#foo"; "end of metadata"]],
     Scenario.client [] "abcdefghi").
Proof.
  apply (getMessages_burst false
           (Scenario.client
              [RecvData (frame [":srv 761 #foo k * :int:7";
                                ":srv 762 #foo :end of metadata"])]
              "abcdefghi")
           (mkSocket
              [RecvData (frame [":srv 761 #foo k * :int:7";
                                ":srv 762 #foo :end of metadata"])] [])
           [":srv 761 #foo k * :int:7"; ":srv 762 #foo :end of metadata"]
           [mkMessage [] (Some "srv") "761" ["#foo"; "k"; "*"; "int:7"];
            mkMessage [] (Some "srv") "762" ["#foo"; "end of metadata"]]
           []);
    try reflexivity; [discriminate|].
  repeat constructor.
Defined.

(** ** The inbox and the socket *)

Module InboxFacts.

Lemma getMessage_loop_filter (p : Message -> bool) (m : Message)
    (rest : list Message) :
  p m = true ->
  forall (skipped : list Message) (fuel : nat) (st : IrcClient),
    inbuffer st = skipped ++ m :: rest ->
    forallb (fun x => negb (p x)) skipped = true ->
    length skipped < fuel ->
    getMessage_loop fuel (Some p) st = (Ok m, with_inbuffer st rest).
Proof.
  intros Hm. induction skipped as [|x skipped IH]; intros fuel st B F L.
  - destruct fuel as [|fuel]; [lia|].
    cbn [getMessage_loop app] in *. unfold bind. rewrite B.
    cbn [inbuffer]. rewrite B. cbn [accepts]. now rewrite Hm.
  - destruct fuel as [|fuel]; [cbn in L; lia|].
    cbn [forallb] in F. apply andb_true_iff in F as [Fx F].
    apply negb_true_iff in Fx.
    cbn [getMessage_loop app] in *. unfold bind. rewrite B.
    cbn [inbuffer]. rewrite B. cbn [accepts]. rewrite Fx.
    rewrite (IH fuel (with_inbuffer st (skipped ++ m :: rest)));
      [reflexivity | reflexivity | exact F | cbn in L; lia].
Qed.

Lemma sendLine_written (line : string) (st : IrcClient) (sock : Socket) :
  conn st = Some sock ->
  sendLine line st
  = (Ok tt,
     with_conn st (Some (mkSocket (incoming sock)
                                  (outgoing sock ++ wire line)))).
Proof.
  intros C. unfold sendLine, bind, sendall, wire. rewrite C.
  cbn [conn with_conn]. destruct (endswith line CRLF); cbn [negb].
  - reflexivity.
  - cbn [conn with_conn incoming outgoing ret].
    now rewrite <- app_assoc.
Qed.

Lemma sendLine_closed (line : string) (st : IrcClient) :
  conn st = None -> sendLine line st = (Raise Disconnected, st).
Proof. intros C. unfold sendLine. now rewrite C. Qed.

End InboxFacts.

(** X5.  With a filter, [getMessage] returns the first message of the
    inbox that the filter accepts, and the messages before it are gone
    from the inbox. *)
Theorem getMessage_filter (p : Message -> bool) (st : IrcClient)
    (skipped : list Message) (m : Message) (rest : list Message) :
  inbuffer st = skipped ++ m :: rest ->
  forallb (fun x => negb (p x)) skipped = true ->
  p m = true ->
  getMessage (Some p) st = (Ok m, with_inbuffer st rest).
Proof.
  intros B F Hm. unfold getMessage.
  apply (InboxFacts.getMessage_loop_filter p m rest Hm skipped); try assumption.
  unfold budget. rewrite B, length_app. cbn [length]. lia.
Qed.

Lemma getMessage_filter_witness :
  getMessage (Some (fun m => String.eqb (command m) "761"))
    (mkIrcClient "irc" false
       [mkMessage [] None "NOTICE" ["x"]; mkMessage [] None "PING" ["y"];
        mkMessage [] None "761" ["k"]; mkMessage [] None "762" []]
       None "abcdefghi")
  = (Ok (mkMessage [] None "761" ["k"]),
     mkIrcClient "irc" false [mkMessage [] None "762" []] None "abcdefghi").
Proof.
  apply (getMessage_filter (fun m => String.eqb (command m) "761")
           (mkIrcClient "irc" false
              [mkMessage [] None "NOTICE" ["x"]; mkMessage [] None "PING" ["y"];
               mkMessage [] None "761" ["k"]; mkMessage [] None "762" []]
              None "abcdefghi")
           [mkMessage [] None "NOTICE" ["x"]; mkMessage [] None "PING" ["y"]]
           (mkMessage [] None "761" ["k"]) [mkMessage [] None "762" []]);
    reflexivity.
Defined.

(** X6.  On a connected client [sendLine] writes the line and then
    CR LF, unless the line ends with CR LF already: what it writes ends
    with CR LF once, and nothing else of the client changes. *)
Theorem sendLine_wire (line : string) (st : IrcClient) (sock : Socket) :
  conn st = Some sock ->
  sendLine line st
  = (Ok tt,
     with_conn st (Some (mkSocket (incoming sock)
                                  (outgoing sock ++ wire line))))
  /\ gather (wire line) = (if endswith line CRLF then line
                           else (line ++ CRLF)%string)
  /\ endswith (gather (wire line)) CRLF = true.
Proof.
  intros C. split; [now apply InboxFacts.sendLine_written|].
  unfold wire. destruct (endswith line CRLF) eqn:E;
    cbn [gather fold_right]; rewrite ?PyStrFacts.append_nil_r.
  - now split.
  - split; [reflexivity | apply PyStrFacts.endswith_append].
Qed.

Lemma sendLine_wire_witness :
  sendLine "PING" (Scenario.client [] "abcdefghi")
  = (Ok tt,
     mkIrcClient "irc" false [] (Some (mkSocket [] ["PING"; CRLF]))
                 "abcdefghi")
  /\ gather (wire "PING") = ("PING" ++ CRLF)%string
  /\ endswith (gather (wire "PING")) CRLF = true.
Proof.
  apply (sendLine_wire "PING" (Scenario.client [] "abcdefghi")
           (mkSocket [] [])).
  reflexivity.
Defined.

(** X7.  Once [disconnect] has run, the client has no connection;
    [disconnect] again does nothing, and [sendLine], [set] and [get]
    with a valid key and [delete_multi] of some keys raise
    [Disconnected] and leave the client as it is.  Reading raises
    another error, [AttributeError]: [getMessages] calls [recv] on
    [None]. *)
Theorem disconnected_refuses (st : IrcClient) (line key : string)
    (value : pyvalue) (keys : list string) :
  isvalidkey key = true ->
  let st' := snd (disconnect st) in
  disconnect st = (Ok tt, st')
  /\ conn st' = None
  /\ disconnect st' = (Ok tt, st')
  /\ sendLine line st' = (Raise Disconnected, st')
  /\ Client.set key value st' = (Raise Disconnected, st')
  /\ Client.get key st' = (Raise Disconnected, st')
  /\ Client.delete_multi (key :: keys) st' = (Raise Disconnected, st')
  /\ getMessages true st' = (Raise AttributeError, st').
Proof.
  intros K st'.
  assert (D : disconnect st = (Ok tt, st')).
  { unfold st', disconnect. now destruct (conn st). }
  assert (N : conn st' = None).
  { unfold st', disconnect. now destruct (conn st) eqn:C. }
  split; [exact D|]. split; [exact N|].
  split; [unfold disconnect; now rewrite N|].
  split; [now apply InboxFacts.sendLine_closed|].
  split; [|split; [|split]].
  - unfold Client.set. rewrite K. cbn [negb]. unfold bind.
    now rewrite InboxFacts.sendLine_closed.
  - unfold Client.get. rewrite K. cbn [negb]. unfold bind.
    now rewrite InboxFacts.sendLine_closed.
  - unfold Client.delete_multi. cbn [Client.send_deletes]. unfold bind.
    now rewrite InboxFacts.sendLine_closed.
  - unfold getMessages. now rewrite N.
Qed.

Lemma disconnected_refuses_witness :
  Client.set "foo" (PyInt 1)
    (snd (disconnect (Scenario.client [RecvTimeout] "abcdefghi")))
  = (Raise Disconnected,
     mkIrcClient "irc" false [] None "abcdefghi").
Proof.
  apply (disconnected_refuses (Scenario.client [RecvTimeout] "abcdefghi")
           "PING" "foo" (PyInt 1) []).
  reflexivity.
Defined.

(** ** Replies to the store *)

Module ReplyFacts.

(** [get] up to its first reply. *)
Lemma get_first_reply (key : string) (st st1 st2 : IrcClient) (m : Message) :
  isvalidkey key = true ->
  sendLine ("METADATA #foo GET " ++ key) st = (Ok tt, st1) ->
  getMessage None st1 = (Ok m, st2) ->
  Client.get key st
  = (if String.eqb (command m) "766" then ret PyNone
     else
       Client.assert_command m "761" ;;
       k <- lift (index (params m) 1) ;;
       if negb (String.eqb k key) then raise AssertionError
       else p3 <- lift (index (params m) 3) ;; lift (Client.decode p3)) st2.
Proof.
  intros K Hs G. unfold Client.get. rewrite K. cbn [negb].
  change ("METADATA " ++ Client.channel ++ " GET " ++ key)%string
    with ("METADATA #foo GET " ++ key)%string.
  unfold bind at 1. rewrite Hs. unfold bind at 1. now rewrite G.
Qed.

(** [set] with its two replies in the inbox. *)
Lemma set_two_replies (key : string) (value : pyvalue) (st : IrcClient)
    (sock : Socket) (m1 m2 : Message) (rest : list Message) :
  isvalidkey key = true ->
  conn st = Some sock ->
  inbuffer st = m1 :: m2 :: rest ->
  Client.set key value st
  = let st1 := with_conn st
                 (Some (mkSocket (incoming sock)
                          (outgoing sock
                           ++ wire ("METADATA #foo SET " ++ key ++ " :"
                                    ++ Client.payload value)))) in
    if String.eqb (command m1) "761" then
      (if String.eqb (command m2) "762" then Ok tt else Raise AssertionError,
       with_inbuffer st1 rest)
    else (Raise AssertionError, with_inbuffer st1 (m2 :: rest)).
Proof.
  intros K C B. unfold Client.set. rewrite K. cbn [negb].
  change ("METADATA " ++ Client.channel ++ " SET " ++ key ++ " :"
          ++ Client.payload value)%string
    with ("METADATA #foo SET " ++ key ++ " :" ++ Client.payload value)%string.
  unfold bind. rewrite (InboxFacts.sendLine_written _ _ _ C).
  rewrite (HandshakeFacts.getMessage_inbuffer _ m1 (m2 :: rest)); [|exact B].
  unfold Client.assert_command, ret, raise. cbv zeta.
  destruct (String.eqb (command m1) "761"); [|reflexivity].
  rewrite (HandshakeFacts.getMessage_inbuffer _ m2 rest); [|reflexivity].
  now destruct (String.eqb (command m2) "762").
Qed.

End ReplyFacts.

(** X8.  When the first reply to [get] is numeric 766, [get] returns
    [None], whatever the parameters of the reply. *)
Theorem get_absent (key : string) (st st1 st2 : IrcClient) (m : Message) :
  isvalidkey key = true ->
  sendLine ("METADATA #foo GET " ++ key) st = (Ok tt, st1) ->
  getMessage None st1 = (Ok m, st2) ->
  command m = "766" ->
  Client.get key st = (Ok PyNone, st2).
Proof.
  intros K Hs G C.
  rewrite (ReplyFacts.get_first_reply key st st1 st2 m K Hs G).
  now rewrite C.
Qed.

Lemma get_absent_witness :
  Client.get "foo"
    (Scenario.client [RecvData (Scenario.line ":srv 766 nick foo :no matching key")]
                     "abcdefghi")
  = (Ok PyNone,
     mkIrcClient "irc" false []
       (Some (mkSocket [] ["METADATA #foo GET foo"; CRLF])) "abcdefghi").
Proof.
  apply (get_absent "foo"
           (Scenario.client
              [RecvData (Scenario.line ":srv 766 nick foo :no matching key")]
              "abcdefghi")
           (mkIrcClient "irc" false []
              (Some (mkSocket
                       [RecvData
                          (Scenario.line ":srv 766 nick foo :no matching key")]
                       ["METADATA #foo GET foo"; CRLF])) "abcdefghi")
           (mkIrcClient "irc" false []
              (Some (mkSocket [] ["METADATA #foo GET foo"; CRLF])) "abcdefghi")
           (mkMessage [] (Some "srv") "766" ["nick"; "foo"; "no matching key"]));
    reflexivity.
Defined.

(** X9.  [get] raises [AssertionError] when its first reply is neither
    766 nor 761, and when it is a 761 whose second parameter is not the
    key that was asked. *)
Theorem get_unexpected_reply (key : string) (st st1 st2 : IrcClient)
    (m : Message) :
  isvalidkey key = true ->
  sendLine ("METADATA #foo GET " ++ key) st = (Ok tt, st1) ->
  getMessage None st1 = (Ok m, st2) ->
  command m <> "766" ->
  command m <> "761"
  \/ (exists k, nth_error (params m) 1 = Some k /\ k <> key) ->
  Client.get key st = (Raise AssertionError, st2).
Proof.
  intros K Hs G C6 H.
  rewrite (ReplyFacts.get_first_reply key st st1 st2 m K Hs G).
  apply String.eqb_neq in C6. rewrite C6.
  unfold Client.assert_command, bind.
  destruct (String.eqb (command m) "761") eqn:C1.
  - destruct H as [H|(k & P & N)].
    + apply String.eqb_eq in C1. contradiction.
    + unfold ret, lift, index. rewrite P.
      apply String.eqb_neq in N. now rewrite N.
  - reflexivity.
Qed.

Lemma get_unexpected_reply_witness :
  Client.get "foo"
    (Scenario.client [RecvData (Scenario.line ":srv 761 #foo bar * :str:x")]
                     "abcdefghi")
  = (Raise AssertionError,
     mkIrcClient "irc" false []
       (Some (mkSocket [] ["METADATA #foo GET foo"; CRLF])) "abcdefghi").
Proof.
  apply (get_unexpected_reply "foo"
           (Scenario.client
              [RecvData (Scenario.line ":srv 761 #foo bar * :str:x")]
              "abcdefghi")
           (mkIrcClient "irc" false []
              (Some (mkSocket
                       [RecvData (Scenario.line ":srv 761 #foo bar * :str:x")]
                       ["METADATA #foo GET foo"; CRLF])) "abcdefghi")
           (mkIrcClient "irc" false []
              (Some (mkSocket [] ["METADATA #foo GET foo"; CRLF])) "abcdefghi")
           (mkMessage [] (Some "srv") "761" ["#foo"; "bar"; "*"; "str:x"]));
    try reflexivity; [discriminate|].
  right. exists "bar". split; [reflexivity | discriminate].
Defined.

(** X10.  With two replies in the inbox, [set] returns when they are a
    761 and then a 762, both taken from the inbox, and raises
    [AssertionError] otherwise; the parameters of the replies are not
    looked at. *)
Theorem set_acknowledged (key : string) (value : pyvalue) (st : IrcClient)
    (sock : Socket) (m1 m2 : Message) (rest : list Message) :
  isvalidkey key = true ->
  conn st = Some sock ->
  inbuffer st = m1 :: m2 :: rest ->
  fst (Client.set key value st)
  = (if acknowledged m1 m2 then Ok tt else Raise AssertionError)
  /\ (acknowledged m1 m2 = true ->
      inbuffer (snd (Client.set key value st)) = rest).
Proof.
  intros K C B.
  rewrite (ReplyFacts.set_two_replies key value st sock m1 m2 rest K C B).
  unfold acknowledged.
  destruct (String.eqb (command m1) "761"); cbn [andb];
    [|split; [reflexivity | discriminate]].
  destruct (String.eqb (command m2) "762");
    (split; [reflexivity | first [discriminate | intros _; reflexivity]]).
Qed.

Lemma set_acknowledged_witness :
  fst (Client.set "foo" (PyStr "bar")
         (mkIrcClient "irc" false
            [mkMessage [] (Some "srv") "761" ["#foo"; "other"; "*"; "int:3"];
             mkMessage [] (Some "srv") "762" []]
            (Some (mkSocket [] [])) "abcdefghi"))
  = Ok tt.
Proof.
  apply (set_acknowledged "foo" (PyStr "bar")
           (mkIrcClient "irc" false
              [mkMessage [] (Some "srv") "761" ["#foo"; "other"; "*"; "int:3"];
               mkMessage [] (Some "srv") "762" []]
              (Some (mkSocket [] [])) "abcdefghi")
           (mkSocket [] [])
           (mkMessage [] (Some "srv") "761" ["#foo"; "other"; "*"; "int:3"])
           (mkMessage [] (Some "srv") "762" []) []);
    reflexivity.
Defined.

(** ** Values on the wire *)

Module IntFacts.











End IntFacts.



(** ** What is written and what is read *)

Module FrameFacts.

(** Sequencing two computations that write nothing writes nothing. *)
Lemma bind_sent {A B} (c : M A) (k : A -> M B) :
  (forall st, sent (snd (c st)) = sent st) ->
  (forall a st, sent (snd (k a st)) = sent st) ->
  forall st, sent (snd (bind c k st)) = sent st.
Proof.
  intros Hc Hk st. unfold bind. specialize (Hc st).
  destruct (c st) as [[a|e| |] st1]; cbn [snd] in *; try exact Hc.
  now rewrite Hk.
Qed.

Lemma lift_sent {A} (x : outcome A) (st : IrcClient) :
  sent (snd (lift x st)) = sent st.
Proof. reflexivity. Qed.

Lemma read_acks_sent (keys : list string) :
  forall st, sent (snd (Client.read_acks keys st)) = sent st.
Proof.
  induction keys as [|key keys IH]; [reflexivity|].
  cbn [Client.read_acks].
  apply bind_sent; [apply StoreFacts.getMessage_sent | intros m].
  apply bind_sent; [apply StoreFacts.assert_command_sent | intros _].
  apply bind_sent; [apply StoreFacts.getMessage_sent | intros m'].
  apply bind_sent; [apply StoreFacts.assert_command_sent | intros _].
  exact IH.
Qed.

Lemma send_deletes_written (keys : list string) :
  forall st sock,
    conn st = Some sock ->
    Client.send_deletes keys st
    = (Ok tt,
       with_conn st (Some (mkSocket (incoming sock)
                                    (outgoing sock ++ delete_lines keys)))).
Proof.
  induction keys as [|key keys IH]; intros st sock C.
  - cbn [Client.send_deletes delete_lines flat_map]. rewrite app_nil_r.
    unfold ret. f_equal. destruct st as [n s b c k]. cbn in *. subst c.
    now destruct sock.
  - cbn [Client.send_deletes]. unfold bind.
    change ("METADATA " ++ Client.channel ++ " SET " ++ key)%string
      with ("METADATA #foo SET " ++ key)%string.
    rewrite (InboxFacts.sendLine_written _ _ _ C).
    rewrite (IH (with_conn st
                   (Some (mkSocket (incoming sock)
                            (outgoing sock
                             ++ wire ("METADATA #foo SET " ++ key)))))
                (mkSocket (incoming sock)
                   (outgoing sock ++ wire ("METADATA #foo SET " ++ key)))
                eq_refl).
    cbn [incoming outgoing delete_lines flat_map].
    now rewrite <- app_assoc.
Qed.

(** Acknowledgements in the inbox, a pair for each key. *)
Lemma read_acks_inbuffer (keys : list string) :
  forall (replies : list (Message * Message)) (rest : list Message)
         (st : IrcClient),
    length replies = length keys ->
    forallb (fun r => acknowledged (fst r) (snd r)) replies = true ->
    inbuffer st = flat_map (fun r => [fst r; snd r]) replies ++ rest ->
    Client.read_acks keys st = (Ok tt, with_inbuffer st rest).
Proof.
  induction keys as [|key keys IH]; intros replies rest st L F B.
  - destruct replies; [|discriminate L].
    cbn [flat_map app] in B. cbn [Client.read_acks]. unfold ret.
    now rewrite <- B, HandshakeFacts.with_inbuffer_same.
  - destruct replies as [|[m1 m2] replies]; [discriminate L|].
    cbn [forallb fst snd] in F. apply andb_true_iff in F as [A F].
    unfold acknowledged in A. apply andb_true_iff in A as [A1 A2].
    cbn [flat_map app fst snd] in B. cbn [Client.read_acks]. unfold bind.
    rewrite (HandshakeFacts.getMessage_inbuffer _ _ _ B).
    unfold Client.assert_command, ret. rewrite A1.
    rewrite (HandshakeFacts.getMessage_inbuffer _ m2
               (flat_map (fun r => [fst r; snd r]) replies ++ rest));
      [|reflexivity].
    rewrite A2.
    rewrite (IH replies rest); [reflexivity | | exact F | reflexivity].
    cbn [length] in L. lia.
Qed.

End FrameFacts.

(** X12.  [delete_multi] writes a request for every key, in the order
    of the keys and without checking the keys, before it reads any
    reply; nothing else is written, whatever the replies. *)
Theorem delete_multi_writes_first (keys : list string) (st : IrcClient)
    (sock : Socket) :
  conn st = Some sock ->
  Client.delete_multi keys st
  = Client.read_acks keys
      (with_conn st
         (Some (mkSocket (incoming sock)
                         (outgoing sock ++ delete_lines keys))))
  /\ sent (snd (Client.delete_multi keys st))
     = sent st ++ delete_lines keys.
Proof.
  intros C.
  assert (E : Client.delete_multi keys st
              = Client.read_acks keys
                  (with_conn st
                     (Some (mkSocket (incoming sock)
                              (outgoing sock ++ delete_lines keys))))).
  { unfold Client.delete_multi, bind.
    now rewrite (FrameFacts.send_deletes_written keys st sock C). }
  split; [exact E|].
  rewrite E, FrameFacts.read_acks_sent. unfold sent. cbn [conn with_conn].
  now rewrite C.
Qed.

Lemma delete_multi_writes_first_witness :
  sent (snd (Client.delete_multi ["a"; "not valid"]
               (Scenario.client [RecvTimeout] "abcdefghi")))
  = ["METADATA #foo SET a"; CRLF; "METADATA #foo SET not valid"; CRLF].
Proof.
  apply (delete_multi_writes_first ["a"; "not valid"]
           (Scenario.client [RecvTimeout] "abcdefghi")
           (mkSocket [RecvTimeout] [])).
  reflexivity.
Defined.

(** X13.  [delete_multi] returns when the inbox holds, for each key in
    turn, a 761 and then a 762; it takes them from the inbox and does
    not look at the key they name. *)
Theorem delete_multi_acknowledged (keys : list string) (st : IrcClient)
    (sock : Socket) (replies : list (Message * Message))
    (rest : list Message) :
  conn st = Some sock ->
  length replies = length keys ->
  forallb (fun r => acknowledged (fst r) (snd r)) replies = true ->
  inbuffer st = flat_map (fun r => [fst r; snd r]) replies ++ rest ->
  fst (Client.delete_multi keys st) = Ok tt
  /\ inbuffer (snd (Client.delete_multi keys st)) = rest.
Proof.
  intros C L F B.
  unfold Client.delete_multi, bind.
  rewrite (FrameFacts.send_deletes_written keys st sock C).
  rewrite (FrameFacts.read_acks_inbuffer keys replies rest);
    [now split | exact L | exact F | exact B].
Qed.

Lemma delete_multi_acknowledged_witness :
  fst (Client.delete_multi ["a"; "b"]
         (mkIrcClient "irc" false
            [mkMessage [] None "761" ["#foo"; "b"; "*"];
             mkMessage [] None "762" ["#foo"];
             mkMessage [] None "761" ["#foo"; "zzz"; "*"];
             mkMessage [] None "762" ["#foo"];
             mkMessage [] None "NOTICE" ["later"]]
            (Some (mkSocket [] [])) "abcdefghi"))
  = Ok tt
  /\ inbuffer (snd (Client.delete_multi ["a"; "b"]
         (mkIrcClient "irc" false
            [mkMessage [] None "761" ["#foo"; "b"; "*"];
             mkMessage [] None "762" ["#foo"];
             mkMessage [] None "761" ["#foo"; "zzz"; "*"];
             mkMessage [] None "762" ["#foo"];
             mkMessage [] None "NOTICE" ["later"]]
            (Some (mkSocket [] [])) "abcdefghi")))
     = [mkMessage [] None "NOTICE" ["later"]].
Proof.
  apply (delete_multi_acknowledged ["a"; "b"]
           (mkIrcClient "irc" false
              [mkMessage [] None "761" ["#foo"; "b"; "*"];
               mkMessage [] None "762" ["#foo"];
               mkMessage [] None "761" ["#foo"; "zzz"; "*"];
               mkMessage [] None "762" ["#foo"];
               mkMessage [] None "NOTICE" ["later"]]
              (Some (mkSocket [] [])) "abcdefghi")
           (mkSocket [] [])
           [(mkMessage [] None "761" ["#foo"; "b"; "*"],
             mkMessage [] None "762" ["#foo"]);
            (mkMessage [] None "761" ["#foo"; "zzz"; "*"],
             mkMessage [] None "762" ["#foo"])]
           [mkMessage [] None "NOTICE" ["later"]]);
    reflexivity.
Defined.

(** X14.  Reading writes nothing: [getMessages] and [getMessage] leave
    what the client has sent as it is, whatever they read and however
    they end. *)
Theorem reading_writes_nothing (assert_get_one : bool)
    (filter_pred : option (Message -> bool)) (st : IrcClient) :
  sent (snd (getMessages assert_get_one st)) = sent st
  /\ sent (snd (getMessage filter_pred st)) = sent st.
Proof.
  split; [apply StoreFacts.getMessages_sent | apply StoreFacts.getMessage_sent].
Qed.

(** X15.  [get] with a valid key writes one request, the line
    [METADATA #foo GET] and the key, and nothing more, whatever the
    reply. *)
Theorem get_writes_request (key : string) (st : IrcClient) (sock : Socket) :
  isvalidkey key = true ->
  conn st = Some sock ->
  sent (snd (Client.get key st))
  = sent st ++ wire ("METADATA #foo GET " ++ key).
Proof.
  intros K C. unfold Client.get. rewrite K. cbn [negb].
  change ("METADATA " ++ Client.channel ++ " GET " ++ key)%string
    with ("METADATA #foo GET " ++ key)%string.
  unfold bind at 1. rewrite (InboxFacts.sendLine_written _ _ _ C).
  rewrite FrameFacts.bind_sent.
  - unfold sent. cbn [conn with_conn outgoing]. now rewrite C.
  - apply StoreFacts.getMessage_sent.
  - intros m st1. destruct (String.eqb (command m) "766"); [reflexivity|].
    apply FrameFacts.bind_sent;
      [apply StoreFacts.assert_command_sent | intros _].
    apply FrameFacts.bind_sent; [apply FrameFacts.lift_sent | intros k].
    intros st2. destruct (negb (String.eqb k key)); [reflexivity|].
    apply FrameFacts.bind_sent; [apply FrameFacts.lift_sent | intros p3].
    apply FrameFacts.lift_sent.
Qed.

Lemma get_writes_request_witness :
  sent (snd (Client.get "foo" (Scenario.client [RecvTimeout] "abcdefghi")))
  = ["METADATA #foo GET foo"; CRLF].
Proof.
  apply (get_writes_request "foo" (Scenario.client [RecvTimeout] "abcdefghi")
           (mkSocket [RecvTimeout] []));
    reflexivity.
Defined.

(** ** The handshake on an inbox *)

Module AuthFacts.

(** [read_until] drops the messages of the inbox whose command is not
    [c], up to the first one whose command is [c]. *)
Lemma read_until_inbuffer (c : string) (m : Message) (more : list Message) :
  String.eqb (command m) c = true ->
  forall (skipped : list Message) (fuel : nat) (m0 : Message)
         (st : IrcClient),
    m0 :: inbuffer st = skipped ++ m :: more ->
    forallb (fun x => negb (String.eqb (command x) c)) skipped = true ->
    length skipped <= fuel ->
    read_until fuel c m0 st = (Ok m, with_inbuffer st more).
Proof.
  intros Hm. induction skipped as [|n skipped IH]; intros fuel m0 st E F L.
  - cbn [app] in E. injection E as -> E.
    destruct fuel; cbn [read_until]; rewrite Hm; unfold ret;
      now rewrite <- E, HandshakeFacts.with_inbuffer_same.
  - cbn [app] in E. injection E as -> E.
    cbn [forallb] in F. apply andb_true_iff in F as [Fn F].
    apply negb_true_iff in Fn.
    destruct fuel as [|fuel]; [cbn in L; lia|].
    cbn [read_until]. rewrite Fn.
    destruct (skipped ++ m :: more) as [|x r] eqn:X.
    { now destruct skipped. }
    unfold bind. rewrite (HandshakeFacts.getMessage_inbuffer st x r E).
    rewrite (IH fuel x (with_inbuffer st r)); [reflexivity | | exact F |].
    + cbn [inbuffer with_inbuffer]. reflexivity.
    + cbn in L. lia.
Qed.

(** The list of capabilities that one message completes. *)
Lemma cap_loop_inbuffer (st : IrcClient) (cap : Message) (caps : string)
    (more : list Message) :
  inbuffer st = cap :: more ->
  command cap = "CAP" ->
  nth_error (params cap) 1 = Some "LS" ->
  nth_error (params cap) 2 = Some caps ->
  caps <> "*" ->
  cap_loop (budget st) [] st
  = (Ok (cap, split " " caps), with_inbuffer st more).
Proof.
  intros B C P1 P2 N. unfold budget. cbn [cap_loop]. unfold bind at 1.
  rewrite (HandshakeFacts.getMessage_inbuffer st cap more B).
  rewrite C. cbn [String.eqb Ascii.eqb Bool.eqb negb]. cbv iota.
  unfold bind, lift, index, ret. rewrite P1.
  cbn [String.eqb Ascii.eqb Bool.eqb negb]. cbv iota. rewrite P2.
  apply String.eqb_neq in N. now rewrite N.
Qed.

(** [authenticate] up to the test of line 141. *)
Lemma authenticate_to_isupport (st : IrcClient) (sock : Socket)
    (cap m005 : Message) (caps : string) (junk more : list Message) :
  conn st = Some sock ->
  inbuffer st = cap :: junk ++ m005 :: more ->
  command cap = "CAP" ->
  nth_error (params cap) 1 = Some "LS" ->
  nth_error (params cap) 2 = Some caps ->
  caps <> "*" ->
  forallb (fun x => negb (String.eqb (command x) "005")) junk = true ->
  command m005 = "005" ->
  authenticate st
  = (if negb (existsb (String.eqb "METADATA") (isupport_names m005)) then
       raise (Exception "Server does not support METADATA.")
     else
       sendLine "PING" ;;
       _ <- (fun st => read_until (budget st) "PONG" m005 st) ;;
       ret tt)
      (greeted st sock more
         (wire "CAP LS 302" ++ wire "USER pyrcmemcached * * :pyrcmemcached"
          ++ wire ("NICK " ++ nick st) ++ wire "CAP END")).
Proof.
  intros C B Cc P1 P2 N J C5.
  destruct st as [nm sio ib cn nk]. cbn [conn inbuffer nick] in *. subst cn ib.
  destruct sock as [inc out].
  unfold authenticate. cbn [nick].
  unfold bind at 1. erewrite InboxFacts.sendLine_written by reflexivity.
  unfold bind at 1. erewrite InboxFacts.sendLine_written by reflexivity.
  unfold bind at 1. erewrite InboxFacts.sendLine_written by reflexivity.
  cbn [with_conn name show_io inbuffer conn nick incoming outgoing].
  unfold bind at 1.
  rewrite cap_loop_inbuffer
    with (cap := cap) (caps := caps) (more := junk ++ m005 :: more);
    [| reflexivity | exact Cc | exact P1 | exact P2 | exact N].
  cbn [fst with_inbuffer name show_io inbuffer conn nick].
  unfold bind at 1. erewrite InboxFacts.sendLine_written by reflexivity.
  cbn [with_conn name show_io inbuffer conn nick incoming outgoing].
  unfold bind at 1.
  rewrite (read_until_inbuffer "005" m005 more) with (skipped := cap :: junk).
  - unfold greeted. cbn [with_inbuffer name show_io inbuffer conn nick
                          incoming outgoing].
    now rewrite <- !app_assoc.
  - now rewrite C5.
  - reflexivity.
  - cbn [forallb]. now rewrite Cc, J.
  - unfold budget.
    cbn [inbuffer with_inbuffer with_conn conn name show_io nick].
    rewrite length_app. cbn [length]. lia.
Qed.

End AuthFacts.

(** X16.  [authenticate] returns when the inbox holds the end of the
    capability list, then a 005 that lists [METADATA] between its first
    and its last parameter, then a PONG, whatever other messages lie
    between them.  It takes the messages up to the PONG from the inbox,
    and it has written five lines: CAP LS 302, USER, NICK with the
    nickname, CAP END and PING. *)
Theorem authenticate_accepts (st : IrcClient) (sock : Socket)
    (cap m005 pong : Message) (caps : string)
    (junk junk' rest : list Message) :
  conn st = Some sock ->
  inbuffer st = cap :: junk ++ m005 :: junk' ++ pong :: rest ->
  command cap = "CAP" ->
  nth_error (params cap) 1 = Some "LS" ->
  nth_error (params cap) 2 = Some caps ->
  caps <> "*" ->
  forallb (fun x => negb (String.eqb (command x) "005")) junk = true ->
  command m005 = "005" ->
  existsb (String.eqb "METADATA") (isupport_names m005) = true ->
  forallb (fun x => negb (String.eqb (command x) "PONG")) junk' = true ->
  command pong = "PONG" ->
  authenticate st
  = (Ok tt,
     mkIrcClient (name st) (show_io st) rest
       (Some (mkSocket (incoming sock)
                (outgoing sock
                 ++ wire "CAP LS 302"
                 ++ wire "USER pyrcmemcached * * :pyrcmemcached"
                 ++ wire ("NICK " ++ nick st)
                 ++ wire "CAP END" ++ wire "PING")))
       (nick st)).
Proof.
  intros C B Cc P1 P2 N J C5 S J' Cp.
  rewrite (AuthFacts.authenticate_to_isupport st sock cap m005 caps junk
             (junk' ++ pong :: rest) C B Cc P1 P2 N J C5).
  rewrite S. cbn [negb]. unfold greeted.
  unfold bind at 1. erewrite InboxFacts.sendLine_written by reflexivity.
  cbn [with_conn name show_io inbuffer conn nick incoming outgoing].
  unfold bind at 1.
  rewrite (AuthFacts.read_until_inbuffer "PONG" pong rest)
    with (skipped := m005 :: junk').
  - unfold ret. cbn [with_inbuffer name show_io inbuffer conn nick].
    now rewrite <- !app_assoc.
  - now rewrite Cp.
  - reflexivity.
  - cbn [forallb]. now rewrite C5, J'.
  - unfold budget.
    cbn [inbuffer with_inbuffer with_conn conn name show_io nick].
    rewrite length_app. cbn [length]. lia.
Qed.

Lemma authenticate_accepts_witness :
  authenticate
    (mkIrcClient "irc" false
       [mkMessage [] (Some "srv") "CAP" ["*"; "LS"; "metadata-2 sasl"];
        mkMessage [] (Some "srv") "001" ["n"; "Welcome"];
        mkMessage [] (Some "srv") "005" ["n"; "METADATA=10"; "are supported"];
        mkMessage [] (Some "srv") "PONG" ["srv"];
        mkMessage [] (Some "srv") "NOTICE" ["n"; "hello"]]
       (Some (mkSocket [] [])) "abcdefghi")
  = (Ok tt,
     mkIrcClient "irc" false [mkMessage [] (Some "srv") "NOTICE" ["n"; "hello"]]
       (Some (mkSocket []
                ["CAP LS 302"; CRLF;
                 "USER pyrcmemcached * * :pyrcmemcached"; CRLF;
                 "NICK abcdefghi"; CRLF; "CAP END"; CRLF; "PING"; CRLF]))
       "abcdefghi").
Proof.
  apply (authenticate_accepts
           (mkIrcClient "irc" false
              [mkMessage [] (Some "srv") "CAP" ["*"; "LS"; "metadata-2 sasl"];
               mkMessage [] (Some "srv") "001" ["n"; "Welcome"];
               mkMessage [] (Some "srv") "005"
                         ["n"; "METADATA=10"; "are supported"];
               mkMessage [] (Some "srv") "PONG" ["srv"];
               mkMessage [] (Some "srv") "NOTICE" ["n"; "hello"]]
              (Some (mkSocket [] [])) "abcdefghi")
           (mkSocket [] [])
           (mkMessage [] (Some "srv") "CAP" ["*"; "LS"; "metadata-2 sasl"])
           (mkMessage [] (Some "srv") "005"
                      ["n"; "METADATA=10"; "are supported"])
           (mkMessage [] (Some "srv") "PONG" ["srv"])
           "metadata-2 sasl"
           [mkMessage [] (Some "srv") "001" ["n"; "Welcome"]]
           []
           [mkMessage [] (Some "srv") "NOTICE" ["n"; "hello"]]);
    try reflexivity; discriminate.
Defined.

(** X17.  When the 005 reply does not list [METADATA] between its first
    and its last parameter, [authenticate] raises [Exception] with the
    text [Server does not support METADATA.], and no PING is written. *)
Theorem authenticate_refuses (st : IrcClient) (sock : Socket)
    (cap m005 : Message) (caps : string) (junk more : list Message) :
  conn st = Some sock ->
  inbuffer st = cap :: junk ++ m005 :: more ->
  command cap = "CAP" ->
  nth_error (params cap) 1 = Some "LS" ->
  nth_error (params cap) 2 = Some caps ->
  caps <> "*" ->
  forallb (fun x => negb (String.eqb (command x) "005")) junk = true ->
  command m005 = "005" ->
  existsb (String.eqb "METADATA") (isupport_names m005) = false ->
  authenticate st
  = (Raise (Exception "Server does not support METADATA."),
     mkIrcClient (name st) (show_io st) more
       (Some (mkSocket (incoming sock)
                (outgoing sock
                 ++ wire "CAP LS 302"
                 ++ wire "USER pyrcmemcached * * :pyrcmemcached"
                 ++ wire ("NICK " ++ nick st)
                 ++ wire "CAP END")))
       (nick st)).
Proof.
  intros C B Cc P1 P2 N J C5 S.
  rewrite (AuthFacts.authenticate_to_isupport st sock cap m005 caps junk
             more C B Cc P1 P2 N J C5).
  rewrite S. reflexivity.
Qed.

Lemma authenticate_refuses_witness :
  authenticate
    (mkIrcClient "irc" false
       [mkMessage [] (Some "srv") "CAP" ["*"; "LS"; "metadata-2"];
        mkMessage [] (Some "srv") "005" ["n"; "CHANTYPES=#"; "METADATA=10"]]
       (Some (mkSocket [] [])) "abcdefghi")
  = (Raise (Exception "Server does not support METADATA."),
     mkIrcClient "irc" false []
       (Some (mkSocket []
                ["CAP LS 302"; CRLF;
                 "USER pyrcmemcached * * :pyrcmemcached"; CRLF;
                 "NICK abcdefghi"; CRLF; "CAP END"; CRLF]))
       "abcdefghi").
Proof.
  apply (authenticate_refuses
           (mkIrcClient "irc" false
              [mkMessage [] (Some "srv") "CAP" ["*"; "LS"; "metadata-2"];
               mkMessage [] (Some "srv") "005"
                         ["n"; "CHANTYPES=#"; "METADATA=10"]]
              (Some (mkSocket [] [])) "abcdefghi")
           (mkSocket [] [])
           (mkMessage [] (Some "srv") "CAP" ["*"; "LS"; "metadata-2"])
           (mkMessage [] (Some "srv") "005" ["n"; "CHANTYPES=#"; "METADATA=10"])
           "metadata-2" [] []);
    try reflexivity; discriminate.
Defined.

(** X18.  When the packet that answers the join request holds, after
    NOTICEs, a first message that is neither a NOTICE nor numeric 366,
    [join] returns.  The rest of that packet stays in the inbox; the
    messages of the packet that follows are read and dropped. *)
Theorem join_returns (channel : string) (st : IrcClient) (sock : Socket)
    (data data' : string) (rest : list recv_event)
    (notices : list Message) (m : Message) (more drained : list Message) :
  conn st = Some sock ->
  inbuffer st = [] ->
  incoming sock = RecvData data :: RecvData data' :: rest ->
  endswith data CRLF = true ->
  obind (Utf8.decode data) (fun text => parse_lines (split CRLF text))
  = Ok (notices ++ m :: more) ->
  forallb (fun x => String.eqb (command x) "NOTICE") notices = true ->
  command m <> "NOTICE" ->
  command m <> "366" ->
  endswith data' CRLF = true ->
  obind (Utf8.decode data') (fun text => parse_lines (split CRLF text))
  = Ok drained ->
  join channel st
  = (Ok tt,
     mkIrcClient (name st) (show_io st) more
       (Some (mkSocket rest (outgoing sock ++ wire ("JOIN " ++ channel))))
       (nick st)).
Proof.
  intros C B I E P N Mn M3 E' P'.
  destruct st as [nm sio ib cn nk]. cbn [conn inbuffer name show_io nick] in *.
  subst cn ib. destruct sock as [inc out]. cbn [incoming outgoing] in *.
  subst inc.
  unfold join. unfold bind at 1.
  erewrite InboxFacts.sendLine_written by reflexivity.
  cbn [with_conn name show_io inbuffer conn nick incoming outgoing].
  destruct (notices ++ m :: more) as [|x r] eqn:X.
  { now destruct notices. }
  unfold bind at 1.
  erewrite HandshakeFacts.getMessage_packet;
    [| reflexivity | reflexivity | reflexivity | exact E | exact P].
  cbn [name show_io nick outgoing].
  unfold bind at 1.
  rewrite (HandshakeFacts.read_while_inbuffer "NOTICE" m more)
    with (skipped := notices).
  - apply String.eqb_neq in M3. rewrite M3.
    unfold bind at 1.
    erewrite HandshakeFacts.getMessages_packet;
      [| reflexivity | reflexivity | exact E'].
    rewrite P'. reflexivity.
  - now apply String.eqb_neq.
  - cbn [inbuffer]. now rewrite X.
  - exact N.
  - unfold budget. cbn [inbuffer].
    assert (L : length (x :: r) = length notices + S (length more)).
    { rewrite <- X, length_app. reflexivity. }
    cbn [length] in L. lia.
Qed.

Lemma join_returns_witness :
  join "#foo"
    (Scenario.client
       [RecvData (frame [":srv NOTICE nick :joining";
                         ":nick!u@h JOIN #foo";
                         ":srv 353 nick = #foo :nick"]);
        RecvData (frame [":srv 366 nick #foo :End of /NAMES list."]);
        RecvTimeout] "abcdefghi")
  = (Ok tt,
     mkIrcClient "irc" false
       [mkMessage [] (Some "srv") "353" ["nick"; "="; "#foo"; "nick"]]
       (Some (mkSocket [RecvTimeout] ["JOIN #foo"; CRLF])) "abcdefghi").
Proof.
  apply (join_returns "#foo"
           (Scenario.client
              [RecvData (frame [":srv NOTICE nick :joining";
                                ":nick!u@h JOIN #foo";
                                ":srv 353 nick = #foo :nick"]);
               RecvData (frame [":srv 366 nick #foo :End of /NAMES list."]);
               RecvTimeout] "abcdefghi")
           (mkSocket
              [RecvData (frame [":srv NOTICE nick :joining";
                                ":nick!u@h JOIN #foo";
                                ":srv 353 nick = #foo :nick"]);
               RecvData (frame [":srv 366 nick #foo :End of /NAMES list."]);
               RecvTimeout] [])
           (frame [":srv NOTICE nick :joining"; ":nick!u@h JOIN #foo";
                   ":srv 353 nick = #foo :nick"])
           (frame [":srv 366 nick #foo :End of /NAMES list."])
           [RecvTimeout]
           [mkMessage [] (Some "srv") "NOTICE" ["nick"; "joining"]]
           (mkMessage [] (Some "nick!u@h") "JOIN" ["#foo"])
           [mkMessage [] (Some "srv") "353" ["nick"; "="; "#foo"; "nick"]]
           [mkMessage [] (Some "srv") "366"
                      ["nick"; "#foo"; "End of /NAMES list."]]);
    try reflexivity; discriminate.
Defined.

(** ** The constructor *)

Module AddressFacts.
Import PyStrFacts.







End AddressFacts.




(** ** Timeouts and the order of messages *)

Module OrderFacts.
Import PyStrFacts.

Lemma gather_truthy (c : string) (chunks : list string) :
  truthy c = true -> String.eqb (gather (c :: chunks)) "" = false.
Proof. destruct c; [discriminate|]. reflexivity. Qed.

Lemma recv_loop_cut (a : bool) (chunks : list string)
    (rest : list recv_event) :
  forallb open_chunk chunks = true ->
  forall data,
    String.eqb (data ++ gather chunks) "" = false ->
    recv_loop a data (packets chunks ++ RecvTimeout :: rest)
    = (Ok (Break (data ++ gather chunks)), rest).
Proof.
  induction chunks as [|c chunks IH]; intros H data D.
  - cbn [gather fold_right] in *. rewrite append_nil_r in *.
    cbn [packets map app recv_loop]. rewrite D, andb_false_r. reflexivity.
  - cbn [forallb] in H. apply andb_true_iff in H as [Hc H].
    unfold open_chunk in Hc. apply andb_true_iff in Hc as [Ht He].
    apply negb_true_iff in He.
    cbn [packets map app recv_loop gather fold_right] in *.
    rewrite Ht, He. cbn [negb].
    fold (packets chunks). fold (gather chunks) in *.
    rewrite <- append_assoc in D. rewrite (IH H _ D).
    now rewrite append_assoc.
Qed.

Lemma getMessage_times_inbuffer (ms : list Message) :
  forall (rest : list Message) (st : IrcClient),
    inbuffer st = ms ++ rest ->
    getMessage_times (length ms) st = (Ok ms, with_inbuffer st rest).
Proof.
  induction ms as [|m ms IH]; intros rest st B.
  - cbn [app] in B. cbn [length getMessage_times]. unfold ret.
    now rewrite <- B, HandshakeFacts.with_inbuffer_same.
  - cbn [app] in B. cbn [length getMessage_times]. unfold bind.
    rewrite (HandshakeFacts.getMessage_inbuffer st m (ms ++ rest) B).
    now rewrite (IH rest (with_inbuffer st (ms ++ rest)) eq_refl).
Qed.

End OrderFacts.

(** X21.  When [recv] times out after bytes have come, [getMessages]
    parses what has come, with either value of its flag: a last line
    that the timeout cuts is parsed as if it were whole. *)
Theorem getMessages_cut_by_timeout (assert_get_one : bool) (st : IrcClient)
    (sock : Socket) (c : string) (chunks : list string)
    (rest : list recv_event) :
  conn st = Some sock ->
  incoming sock = packets (c :: chunks) ++ RecvTimeout :: rest ->
  forallb open_chunk (c :: chunks) = true ->
  getMessages assert_get_one st
  = (obind (Utf8.decode (gather (c :: chunks)))
           (fun text => parse_lines (split CRLF text)),
     with_conn st (Some (mkSocket rest (outgoing sock)))).
Proof.
  intros C I O. unfold getMessages. rewrite C, I.
  rewrite (OrderFacts.recv_loop_cut _ _ _ O).
  - reflexivity.
  - cbn [forallb] in O. apply andb_true_iff in O as [Oc _].
    unfold open_chunk in Oc. apply andb_true_iff in Oc as [T _].
    now apply OrderFacts.gather_truthy.
Qed.

Lemma getMessages_cut_by_timeout_witness :
  getMessages false
    (Scenario.client [RecvData ":srv 761 #foo k * :str:hel"; RecvTimeout;
                      RecvData (Scenario.line "lo")] "abcdefghi")
  = (Ok [mkMessage [] (Some "srv") "761" ["#foo"; "k"; "*"; "str:hel"]],
     Scenario.client [RecvData (Scenario.line "lo")] "abcdefghi").
Proof.
  apply (getMessages_cut_by_timeout false
           (Scenario.client [RecvData ":srv 761 #foo k * :str:hel"; RecvTimeout;
                             RecvData (Scenario.line "lo")] "abcdefghi")
           (mkSocket [RecvData ":srv 761 #foo k * :str:hel"; RecvTimeout;
                      RecvData (Scenario.line "lo")] [])
           ":srv 761 #foo k * :str:hel" [] [RecvData (Scenario.line "lo")]);
    reflexivity.
Defined.

(** X22.  The messages of a packet come out of [getMessage] in the order
    of its lines: the first call reads the packet, the calls that
    follow take from the inbox and do not read the socket. *)
Theorem getMessage_in_order (st : IrcClient) (sock : Socket)
    (data : string) (rest : list recv_event) (m : Message)
    (ms : list Message) :
  conn st = Some sock ->
  inbuffer st = [] ->
  incoming sock = RecvData data :: rest ->
  endswith data CRLF = true ->
  obind (Utf8.decode data) (fun text => parse_lines (split CRLF text))
  = Ok (m :: ms) ->
  getMessage_times (length (m :: ms)) st
  = (Ok (m :: ms),
     mkIrcClient (name st) (show_io st) []
       (Some (mkSocket rest (outgoing sock))) (nick st)).
Proof.
  intros C B I E P. cbn [length getMessage_times]. unfold bind at 1.
  rewrite (HandshakeFacts.getMessage_packet st sock data rest m ms C B I E P).
  unfold bind at 1.
  rewrite (OrderFacts.getMessage_times_inbuffer ms []).
  - reflexivity.
  - cbn [inbuffer]. now rewrite app_nil_r.
Qed.

Lemma getMessage_in_order_witness :
  getMessage_times 2
    (Scenario.client
       [RecvData (frame [":srv 761 #foo k * :int:7";
                         ":srv 762 #foo :end of metadata"]);
        RecvTimeout] "abcdefghi")
  = (Ok [mkMessage [] (Some "srv") "761" ["#foo"; "k"; "*"; "int:7"];
         mkMessage [] (Some "srv") "762" ["#foo"; "end of metadata"]],
     Scenario.client [RecvTimeout] "abcdefghi").
Proof.
  apply (getMessage_in_order
           (Scenario.client
              [RecvData (frame [":srv 761 #foo k * :int:7";
                                ":srv 762 #foo :end of metadata"]);
               RecvTimeout] "abcdefghi")
           (mkSocket
              [RecvData (frame [":srv 761 #foo k * :int:7";
                                ":srv 762 #foo :end of metadata"]);
               RecvTimeout] [])
           (frame [":srv 761 #foo k * :int:7";
                   ":srv 762 #foo :end of metadata"])
           [RecvTimeout]
           (mkMessage [] (Some "srv") "761" ["#foo"; "k"; "*"; "int:7"])
           [mkMessage [] (Some "srv") "762" ["#foo"; "end of metadata"]]);
    reflexivity.
Defined.
